(** * Audio download service (seraprogrammer/yt): format selection, title
    sanitisation, request validation and the client post-processing stage.

    Shallow embedding of
    - [src/unnamed/part_000]   the [/api/download] route handler,
    - [src/unnamed/part_001]   the client component ([convertToMp3], [cleanTitle]),
    - [src/app/api/test/route.ts]  the [/api/test] metadata route.

    JavaScript strings are sequences of UTF-16 code units; we model them as
    [list Z].  Regular expressions without the [u] flag act on code units. *)

From Stdlib Require Import ZArith QArith List Bool String Ascii Lia DecimalString.
Import ListNotations.
Open Scope Z_scope.
Set Warnings "-register-all".

(* ------------------------------------------------------------------ *)
(** ** Format descriptors (ytdl-core [videoFormat]) *)

Record Format := mkFormat {
  hasAudio : bool;
  hasVideo : bool;
  audioBitrate : option Z;   (** [undefined]/[null] is [None] *)
  itag : Z                   (** opaque handle, distinguishes formats *)
}.

(** [format.audioBitrate || 0] *)
Definition bitrate_or_0 (f : Format) : Z :=
  match audioBitrate f with Some n => n | None => 0 end.

(** [.filter(format => format.hasAudio && !format.hasVideo)] *)
Definition audio_only (f : Format) : bool := hasAudio f && negb (hasVideo f).

(** [.filter(format => format.audioBitrate)]: a number is truthy iff it is
    not [0]. *)
Definition bitrate_truthy (f : Format) : bool :=
  match audioBitrate f with Some n => negb (n =? 0) | None => false end.

(** [Array.prototype.sort] is stable (ES2019); with the comparator
    [(b.audioBitrate || 0) - (a.audioBitrate || 0)] it orders by bitrate,
    highest first, keeping resolver order among equal bitrates.  Any stable
    sort yields the same array; we use insertion sort. *)
Fixpoint insert_desc (x : Format) (l : list Format) : list Format :=
  match l with
  | [] => [x]
  | y :: ys =>
      if bitrate_or_0 x <? bitrate_or_0 y then y :: insert_desc x ys
      else x :: y :: ys
  end.

Fixpoint sort_desc (l : list Format) : list Format :=
  match l with
  | [] => []
  | x :: xs => insert_desc x (sort_desc xs)
  end.

(** [audioFormats] (lines 142-145). *)
Definition audioFormats (formats : list Format) : list Format :=
  sort_desc (filter bitrate_truthy (filter audio_only formats)).

(** [Array.prototype.find] *)
Fixpoint find_first {A} (p : A -> bool) (l : list A) : option A :=
  match l with
  | [] => None
  | x :: xs => if p x then Some x else find_first p xs
  end.

Definition in_128_range (f : Format) : bool :=
  (bitrate_or_0 f <=? 160) && (96 <=? bitrate_or_0 f).
Definition below_128 (f : Format) : bool := bitrate_or_0 f <=? 128.
Definition in_192_range (f : Format) : bool :=
  (160 <=? bitrate_or_0 f) && (bitrate_or_0 f <=? 256).
Definition above_192 (f : Format) : bool := 192 <=? bitrate_or_0 f.

(** [a || b] on [Format | undefined]: formats are objects, always truthy. *)
Definition or_else {A} (a b : option A) : option A :=
  match a with Some _ => a | None => b end.

(** Lines 147-165: [selectedFormat] for [targetBitrate = parseInt(bitrate)];
    [None] is [undefined]. *)
Definition select (targetBitrate : Z) (formats : list Format) : option Format :=
  let af := audioFormats formats in
  let selectedFormat :=
    if targetBitrate =? 128 then
      or_else (find_first in_128_range af) (find_first below_128 af)
    else if targetBitrate =? 192 then
      or_else (find_first in_192_range af) (find_first above_192 af)
    else None in
  match selectedFormat with
  | Some f => Some f
  | None => hd_error af            (** [audioFormats[0]] *)
  end.

(** Ideal range of a bitrate class, as the spec's step 3/4 states it. *)
Definition ideal_range (b : Z) (f : Format) : bool :=
  if b =? 128 then in_128_range f else in_192_range f.

(** The spec's filtered set: audio only with a known bitrate. *)
Definition known_audio_only (f : Format) : bool :=
  audio_only f && match audioBitrate f with Some _ => true | None => false end.

(** Helper to write audio-only test candidates. *)
Definition audio (itag_ br : Z) : Format := mkFormat true false (Some br) itag_.

(* ------------------------------------------------------------------ *)
(** ** Title sanitisation *)

(** Regex class [\w]: [A-Za-z0-9_]. *)
Definition is_word (c : Z) : bool :=
  ((65 <=? c) && (c <=? 90)) || ((97 <=? c) && (c <=? 122))
  || ((48 <=? c) && (c <=? 57)) || (c =? 95).

(** Regex class [\s], which is also the set [String.prototype.trim] removes:
    TAB, LF, VT, FF, CR, SPACE, NBSP, U+1680, U+2000..U+200A, U+2028,
    U+2029, U+202F, U+205F, U+3000, U+FEFF. *)
Definition is_space (c : Z) : bool :=
  ((9 <=? c) && (c <=? 13)) || (c =? 32) || (c =? 160) || (c =? 5760)
  || ((8192 <=? c) && (c <=? 8202)) || (c =? 8232) || (c =? 8233)
  || (c =? 8239) || (c =? 8287) || (c =? 12288) || (c =? 65279).

Definition underscore : Z := 95.
Definition hyphen : Z := 45.

(** [s.replace(/[^...]/g, '')]: keep the code units of the class. *)
Definition strip_chars (keep : Z -> bool) (s : list Z) : list Z := filter keep s.

(** [s.replace(/p+/g, r)] for a one-unit class [p] and a one-unit
    replacement [r]: each maximal run of units of [p] becomes [r].
    [in_run] says that the previous unit belonged to a run already replaced. *)
Fixpoint replace_runs (p : Z -> bool) (r : Z) (in_run : bool) (s : list Z)
  : list Z :=
  match s with
  | [] => []
  | c :: cs =>
      if p c then
        if in_run then replace_runs p r true cs else r :: replace_runs p r true cs
      else c :: replace_runs p r false cs
  end.

(** [String.prototype.trim] *)
Fixpoint trim_start (s : list Z) : list Z :=
  match s with
  | c :: cs => if is_space c then trim_start cs else s
  | [] => []
  end.
Definition trim (s : list Z) : list Z := rev (trim_start (rev (trim_start s))).

(** [s.replace(/_$/, '')] *)
Definition drop_trailing_underscore (s : list Z) : list Z :=
  match rev s with
  | c :: r => if c =? underscore then rev r else s
  | [] => []
  end.

(** [s.replace(/^_|_$/g, '')]: the global scan first matches [^_] at index
    0 (if the string starts with [_]); after that only [_$] can match, at
    the last index, past the first match. *)
Definition strip_edge_underscores (s : list Z) : list Z :=
  match s with
  | c :: cs => if c =? underscore then drop_trailing_underscore cs
               else drop_trailing_underscore s
  | [] => []
  end.

(** ['youtube_audio'] *)
Definition default_title : list Z :=
  [121; 111; 117; 116; 117; 98; 101; 95; 97; 117; 100; 105; 111].

(** [x || 'youtube_audio'] on strings: the empty string is falsy. *)
Definition or_default (s : list Z) : list Z :=
  match s with [] => default_title | _ => s end.

(** Standard mode: the server's title derivation (part_000, lines 127-130)
    [title.replace(/[^\w\s-]/g, '').replace(/\s+/g, '_').trim() || 'youtube_audio']. *)
Definition standard_keep (c : Z) : bool := is_word c || is_space c || (c =? hyphen).

Definition sanitize_standard (title : list Z) : list Z :=
  or_default (trim (replace_runs is_space underscore false (strip_chars standard_keep title))).

Definition compat_keep (c : Z) : bool := is_word c || is_space c.

(** Compatibility mode: the client's [cleanTitle] (part_001, lines 215-224). *)
Definition sanitize_compat (videoTitle : list Z) : list Z :=
  let s1 := strip_chars compat_keep videoTitle in
  let s2 := replace_runs is_space underscore false s1 in
  let s3 := replace_runs (fun c => c =? underscore) underscore false s2 in
  let s4 := strip_edge_underscores s3 in
  let cleanTitle := firstn 50 s4 in          (** [.substring(0, 50)] *)
  or_default cleanTitle.

Definition sanitize (rawTitle : list Z) (compatibilityMode : bool) : list Z :=
  if compatibilityMode then sanitize_compat rawTitle else sanitize_standard rawTitle.

(** Code units of an ASCII literal, to write test inputs. *)
Definition js (s : string) : list Z :=
  map (fun a => Z.of_nat (nat_of_ascii a)) (list_ascii_of_string s).

(* ------------------------------------------------------------------ *)
(** ** Request bodies and the two POST handlers *)

(** The value [await request.json()] yields.  JSON numbers are modelled by
    integers (only their truthiness and identity matter here). *)
Inductive JSValue :=
| JUndefined
| JNull
| JBool (b : bool)
| JNum (n : Z)
| JStr (s : list Z)
| JArr (l : list JSValue)
| JObj (fields : list (list Z * JSValue)).

Fixpoint lookup_field (k : list Z) (fs : list (list Z * JSValue)) : JSValue :=
  match fs with
  | [] => JUndefined
  | (k', v) :: fs' => if list_eq_dec Z.eq_dec k k' then v else lookup_field k fs'
  end.

(** Reading one property in [const { k } = body]: destructuring [null] or
    [undefined] throws a [TypeError]; other primitives and arrays have no
    such property. *)
Definition get_prop (body : JSValue) (k : list Z) : option JSValue :=
  match body with
  | JNull | JUndefined => None
  | JObj fs => Some (lookup_field k fs)
  | _ => Some JUndefined
  end.

(** [const { k = d } = body]: the default replaces [undefined] only. *)
Definition with_default (v d : JSValue) : JSValue :=
  match v with JUndefined => d | _ => v end.

(** JavaScript truthiness. *)
Definition truthy (v : JSValue) : bool :=
  match v with
  | JUndefined | JNull => false
  | JBool b => b
  | JNum n => negb (n =? 0)
  | JStr s => match s with [] => false | _ => true end
  | JArr _ | JObj _ => true
  end.

(** [[a, b, ...].includes(v)] on string literals (SameValueZero). *)
Definition includes (lits : list (list Z)) (v : JSValue) : bool :=
  match v with
  | JStr s => existsb (fun l => if list_eq_dec Z.eq_dec l s then true else false) lits
  | _ => false
  end.

(** [Number.prototype.toString()] on an integer (JSON numbers are integers
    here, below [1e21] in magnitude, so no exponent form). *)
Definition number_string (n : Z) : list Z := js (NilZero.string_of_int (Z.to_int n)).

(** Whether a parsed JSON object has an own property [k]. *)
Definition has_own (k : list Z) (fs : list (list Z * JSValue)) : bool :=
  existsb (fun kv => if list_eq_dec Z.eq_dec k (fst kv) then true else false) fs.

(** [parts.join(',')] *)
Fixpoint join_commas (parts : list (list Z)) : list Z :=
  match parts with
  | [] => []
  | [p] => p
  | p :: ps => p ++ 44 :: join_commas ps
  end.

Definition to_primitive_error : list Z := js "Cannot convert object to primitive value".

(** [ToString(v)] (as in [new Error(v)]); [inl msg] is the [TypeError] it
    throws.  An array prints as [join(',')], where [null] and [undefined]
    elements print as empty; an object prints as ["[object Object]"] unless
    an own [toString] property (a JSON value, so not callable) hides the
    inherited one: then [valueOf] gives back the object itself and the
    conversion throws. *)
Fixpoint js_to_string (v : JSValue) : list Z + list Z :=
  match v with
  | JUndefined => inr (js "undefined")
  | JNull => inr (js "null")
  | JBool b => inr (if b then js "true" else js "false")
  | JNum n => inr (number_string n)
  | JStr s => inr s
  | JArr l =>
      let fix elems (l : list JSValue) : list Z + list (list Z) :=
        match l with
        | [] => inr []
        | x :: xs =>
            match match x with JUndefined | JNull => inr [] | _ => js_to_string x end with
            | inl e => inl e
            | inr a => match elems xs with inl e => inl e | inr b => inr (a :: b) end
            end
        end in
      match elems l with inl e => inl e | inr parts => inr (join_commas parts) end
  | JObj fs =>
      if has_own (js "toString") fs then inl to_primitive_error
      else inr (js "[object Object]")
  end.

(** [parseInt] on a string of decimal digits (all the handler passes it,
    after validation); [None] is [NaN]. *)
Fixpoint digits_value (acc : Z) (s : list Z) : Z :=
  match s with
  | c :: cs => if (48 <=? c) && (c <=? 57) then digits_value (acc * 10 + (c - 48)) cs else acc
  | [] => acc
  end.
Definition parseInt (v : JSValue) : option Z :=
  match v with
  | JStr (c :: cs) => if (48 <=? c) && (c <=? 57) then Some (digits_value 0 (c :: cs)) else None
  | _ => None
  end.

Record Info := mkInfo {
  formats : list Format;
  videoTitle : list Z
}.

(** The two ways the download route asks ytdl for a stream:
    [ytdl(url, { format: selectedFormat, ... })] and
    [ytdl(url, { quality: 'highestaudio', filter: 'audioonly', ... })]. *)
Inductive StreamReq :=
| ByFormat (selectedFormat : option Format)
| HighestAudioOnly.

Inductive Response :=
| JsonResponse (status : Z) (body : list (list Z * JSValue))
| AudioResponse (status : Z) (bytes : list Byte.byte) (headers : list (list Z * list Z)).

(** A handler is a program over the Source Resolver (ytdl-core) calls it
    makes; each call's answer picks the continuation.  [GetInfo] answers
    [None] when the promise rejects, [Stream] answers [inl msg] when the
    stream errors with message [msg]. *)
Inductive Prog :=
| Done (r : Response)
| ValidateURL (url : JSValue) (k : bool -> Prog)
| GetInfo (url : JSValue) (k : option Info -> Prog)
| Stream (url : JSValue) (req : StreamReq) (k : list Z + list Byte.byte -> Prog).

Definition error_json (status : Z) (msg : string) : Response :=
  JsonResponse status [(js "error", JStr (js msg))].

(** The outer [catch (error)] of the download route. *)
Definition server_error (msg : list Z) : Response :=
  JsonResponse 500 [(js "error", JStr (js "Server error: " ++ msg))].

Definition destructure_error : list Z :=
  js "Cannot destructure property of null or undefined".

(** The checks of the [Headers] object [new NextResponse] builds (undici):
    a value must be a ByteString (no code unit above 255); it is stored
    without leading and trailing HTTP whitespace, and must then hold no
    NUL, CR or LF.  [inl msg] is the [TypeError] thrown. *)
Definition http_whitespace (c : Z) : bool := (c =? 9) || (c =? 10) || (c =? 13) || (c =? 32).

Fixpoint drop_while (p : Z -> bool) (s : list Z) : list Z :=
  match s with
  | c :: cs => if p c then drop_while p cs else s
  | [] => []
  end.

Definition header_value_normalize (s : list Z) : list Z :=
  rev (drop_while http_whitespace (rev (drop_while http_whitespace s))).

Definition bytestring_error : list Z := js "Cannot convert argument to a ByteString".
Definition header_value_error : list Z := js "Invalid header value".

Definition header_value (s : list Z) : list Z + list Z :=
  if existsb (fun c => 255 <? c) s then inl bytestring_error
  else
    let v := header_value_normalize s in
    if existsb (fun c => (c =? 0) || (c =? 10) || (c =? 13)) v then inl header_value_error
    else inr v.

(** The value an echo header gets: [oldPhoneMode.toString()], then the
    [Headers] checks; [inl msg] is the [TypeError] thrown on the way.
    [bitrate] and [sampleRate] reach their headers only as strings from
    the supported lists, for which this is the identity. *)
Definition header_string (v : JSValue) : list Z + list Z :=
  let s := match v with
           | JUndefined => inl (js "Cannot read properties of undefined")
           | JNull => inl (js "Cannot read properties of null")
           | JObj fs =>
               if has_own (js "toString") fs
               then inl (js "oldPhoneMode.toString is not a function")
               else inr (js "[object Object]")
           | _ => js_to_string v
           end in
  match s with inl e => inl e | inr s' => header_value s' end.

(** [POST /api/download] (part_000, lines 81-221).  The
    [Content-Disposition] header, which only URI-encodes [title], is left
    out. *)
Definition download_POST (body : JSValue) : Prog :=
  match get_prop body (js "url"), get_prop body (js "bitrate"),
        get_prop body (js "sampleRate"), get_prop body (js "oldPhoneMode") with
  | Some url, Some br, Some sr, Some opm =>
    let bitrate := with_default br (JStr (js "128")) in
    let sampleRate := with_default sr (JStr (js "22050")) in
    let oldPhoneMode := with_default opm (JBool true) in
    if negb (truthy url) then Done (error_json 400 "URL is required")
    else if negb (includes [js "128"; js "192"] bitrate) then
      Done (error_json 400 "Invalid bitrate. Only 128 and 192 kbps are supported.")
    else if negb (includes [js "16000"; js "22050"; js "44100"] sampleRate) then
      Done (error_json 400 "Invalid sample rate. Only 16000, 22050, and 44100 Hz are supported.")
    else
    ValidateURL url (fun ok =>
    if negb ok then Done (error_json 400 "Invalid YouTube URL") else
    GetInfo url (fun info1 =>
    let title := match info1 with
                 | Some info => sanitize_standard (videoTitle info)
                 | None => default_title
                 end in
    GetInfo url (fun info2 =>
    let req := match info2 with
               | Some info =>
                   ByFormat (select (match parseInt bitrate with Some n => n | None => 0 end)
                                    (formats info))
               | None => HighestAudioOnly
               end in
    Stream url req (fun res =>
    match res with
    | inl msg => Done (server_error msg)
    | inr audioBuffer =>
        match header_string oldPhoneMode, header_string bitrate,
              header_string sampleRate with
        | inr o, inr b, inr r =>
            Done (AudioResponse 200 audioBuffer
                    [(js "Content-Type", js "audio/mp4");
                     (js "X-Video-Title", title);
                     (js "X-Bitrate", b);
                     (js "X-Sample-Rate", r);
                     (js "X-Old-Phone-Mode", o)])
        | inl e, _, _ | _, inl e, _ | _, _, inl e => Done (server_error e)
        end
    end))))
  | _, _, _, _ => Done (server_error destructure_error)
  end.

(** [POST /api/test] (src/app/api/test/route.ts, lines 41-106); the success
    body keeps the fields this development looks at. *)
Definition test_POST (body : JSValue) : Prog :=
  match get_prop body (js "url") with
  | None =>
      Done (JsonResponse 500 [(js "status", JStr (js "error"));
                              (js "message", JStr (js "Server error: " ++ destructure_error))])
  | Some url =>
    if negb (truthy url) then
      Done (JsonResponse 400 [(js "status", JStr (js "error"));
                              (js "message", JStr (js "URL is required"))])
    else
    ValidateURL url (fun ok =>
    if negb ok then
      Done (JsonResponse 400 [(js "status", JStr (js "error"));
                              (js "message", JStr (js "Invalid YouTube URL"))])
    else
    GetInfo url (fun info =>
    match info with
    | Some i => Done (JsonResponse 200 [(js "status", JStr (js "success"));
                                        (js "title", JStr (videoTitle i))])
    | None => Done (JsonResponse 500 [(js "status", JStr (js "error"));
                                      (js "message", JStr (js "Info extraction failed"))])
    end))
  end.

(** Resolver calls a run performs. *)
Inductive Call :=
| CValidate (url : JSValue)
| CGetInfo (url : JSValue)
| CStream (url : JSValue) (req : StreamReq).

(** Run a handler against a resolver given by its answers. *)
Fixpoint run (validate : JSValue -> bool) (getInfo : JSValue -> option Info)
    (stream : JSValue -> StreamReq -> list Z + list Byte.byte) (p : Prog)
  : list Call * Response :=
  match p with
  | Done r => ([], r)
  | ValidateURL u k =>
      let '(cs, r) := run validate getInfo stream (k (validate u)) in (CValidate u :: cs, r)
  | GetInfo u k =>
      let '(cs, r) := run validate getInfo stream (k (getInfo u)) in (CGetInfo u :: cs, r)
  | Stream u q k =>
      let '(cs, r) := run validate getInfo stream (k (stream u q)) in (CStream u q :: cs, r)
  end.

(** [run] against a resolver whose metadata lookups answer independently:
    [getInfo i] answers the lookup made after [i] earlier ones. *)
Fixpoint run_lookups (validate : JSValue -> bool) (getInfo : nat -> JSValue -> option Info)
    (stream : JSValue -> StreamReq -> list Z + list Byte.byte) (i : nat) (p : Prog)
  : list Call * Response :=
  match p with
  | Done r => ([], r)
  | ValidateURL u k =>
      let '(cs, r) := run_lookups validate getInfo stream i (k (validate u)) in
      (CValidate u :: cs, r)
  | GetInfo u k =>
      let '(cs, r) := run_lookups validate getInfo stream (S i) (k (getInfo i u)) in
      (CGetInfo u :: cs, r)
  | Stream u q k =>
      let '(cs, r) := run_lookups validate getInfo stream i (k (stream u q)) in
      (CStream u q :: cs, r)
  end.

Definition status_of (r : Response) : Z :=
  match r with JsonResponse s _ => s | AudioResponse s _ _ => s end.

(* ------------------------------------------------------------------ *)
(** ** Client post-processing stage ([convertToMp3], part_001 lines 46-84) *)

Record Blob := mkBlob { blob_bytes : list Byte.byte; blob_type : list Z }.

(** Observable effects of the client stage, in order. *)
Inductive Event :=
| Progress (p : Z)            (** a call [onProgress(p)] *)
| Sleep (ms : Z)              (** [await new Promise(r => setTimeout(r, ms))] *)
| ConsoleLog | ConsoleError
| Resolve (b : Blob).         (** [resolve(blob)] of the returned promise *)

(** A statement either completes or throws; effects accumulate. *)
Inductive Outcome (A : Type) := Normal (a : A) | Thrown (e : list Z).
Arguments Normal {A} a.
Arguments Thrown {A} e.

Definition M (A : Type) : Type := list Event -> Outcome A * list Event.

Definition ret {A} (a : A) : M A := fun tr => (Normal a, tr).
Definition bind {A B} (m : M A) (f : A -> M B) : M B :=
  fun tr => match m tr with
            | (Normal a, tr') => f a tr'
            | (Thrown e, tr') => (Thrown e, tr')
            end.
Notation "x <- m ;; k" := (bind m (fun x => k)) (at level 61, m at next level, right associativity).
Notation "m ;;; k" := (bind m (fun _ => k)) (at level 61, right associativity).

Definition emit (e : Event) : M unit := fun tr => (Normal tt, tr ++ [e]).

(** [try { body } catch (error) { handler }] *)
Definition try_catch {A} (body : M A) (handler : list Z -> M A) : M A :=
  fun tr => match body tr with
            | (Thrown e, tr') => handler e tr'
            | r => r
            end.

(** [if (onProgress) onProgress(p)] *)
Definition call_progress (onProgress : option (Z -> M unit)) (p : Z) : M unit :=
  match onProgress with Some cb => cb p | None => ret tt end.

Definition audio_mpeg : list Z := js "audio/mpeg".

Definition convertToMp3 (audioBuffer : list Byte.byte) (bitrate sampleRate : list Z)
    (oldPhoneMode : bool) (onProgress : option (Z -> M unit)) : M unit :=
  try_catch
    (call_progress onProgress 20 ;;;
     emit (Sleep 300) ;;;
     call_progress onProgress 50 ;;;
     emit (Sleep 300) ;;;
     call_progress onProgress 80 ;;;
     emit (Sleep 200) ;;;
     call_progress onProgress 100 ;;;
     emit ConsoleLog ;;;
     emit (Resolve (mkBlob audioBuffer audio_mpeg)))
    (fun _ =>
     emit ConsoleError ;;;
     call_progress onProgress 100 ;;;
     emit (Resolve (mkBlob audioBuffer audio_mpeg))).

(** The progress callback [handleDownload] passes (a state update that
    cannot throw): it only records the reported value. *)
Definition record_progress (p : Z) : M unit := emit (Progress p).

(** The value the returned promise settles with: its first [resolve]. *)
Fixpoint settled (tr : list Event) : option Blob :=
  match tr with
  | [] => None
  | Resolve b :: _ => Some b
  | _ :: tr' => settled tr'
  end.

Fixpoint progress_reports (tr : list Event) : list Z :=
  match tr with
  | [] => []
  | Progress p :: tr' => p :: progress_reports tr'
  | _ :: tr' => progress_reports tr'
  end.

(* ------------------------------------------------------------------ *)
(** ** Client URL check ([validateYouTubeUrl], part_001 lines 41-44) *)

(** [s] starts with [p]: the rest of [s]. *)
Fixpoint strip_prefix (p s : list Z) : option (list Z) :=
  match p, s with
  | [], _ => Some s
  | c :: p', d :: s' => if c =? d then strip_prefix p' s' else None
  | _ :: _, [] => None
  end.

(** Line terminators, the units [.] does not match. *)
Definition is_line_terminator (c : Z) : bool :=
  (c =? 10) || (c =? 13) || (c =? 8232) || (c =? 8233).

Definition prefix_then (p : list Z) (k : list Z -> bool) (s : list Z) : bool :=
  match strip_prefix p s with Some r => k r | None => false end.

(** [\/.+] with no end anchor: one unit other than a line terminator. *)
Definition dot_plus (s : list Z) : bool :=
  match s with c :: _ => negb (is_line_terminator c) | [] => false end.

(** [(youtube\.com|youtu\.be)\/.+] *)
Definition host_part (s : list Z) : bool :=
  prefix_then (js "youtube.com/") dot_plus s || prefix_then (js "youtu.be/") dot_plus s.

(** [(www\.)?] followed by the host part; backtracking tries both. *)
Definition www_part (s : list Z) : bool :=
  prefix_then (js "www.") host_part s || host_part s.

(** [/^(https?:\/\/)?(www\.)?(youtube\.com|youtu\.be)\/.+/.test(url)] *)
Definition validateYouTubeUrl (url : list Z) : bool :=
  prefix_then (js "https://") www_part url || prefix_then (js "http://") www_part url
  || www_part url.

(** [handleUrlChange] (part_001 lines 119-130): a valid, non-blank input
    schedules [fetchVideoInfo] after 1000 ms (the [onChange] handler drops
    the returned cleanup); anything else clears the preview. *)
Inductive UrlChangeEffect :=
| ScheduleFetch (delay : Z) (url : list Z)
| ClearVideoInfo.

Definition handleUrlChange (newUrl : list Z) : UrlChangeEffect :=
  if negb (match trim newUrl with [] => false | _ => true end) then ClearVideoInfo
  else if validateYouTubeUrl newUrl then ScheduleFetch 1000 newUrl
  else ClearVideoInfo.

(* ------------------------------------------------------------------ *)
(** ** Client download flow ([handleDownload], part_001 lines 132-249) *)

Inductive DStatus := Idle | Downloading | Converting | Completed | Failed.

(** [DownloadState]; [downloadUrl] and [filename] are never set. *)
Record DownloadState := mkDState {
  isDownloading : bool;
  progress : Q;
  status : DStatus;
  error : option (list Z)
}.

(** [BitrateOption] and [SampleRateOption]: the radio buttons' values. *)
Inductive BitrateOption := Br128 | Br192.
Inductive SampleRateOption := Sr16000 | Sr22050 | Sr44100.

Definition bitrate_string (b : BitrateOption) : list Z :=
  match b with Br128 => js "128" | Br192 => js "192" end.
Definition sample_rate_string (r : SampleRateOption) : list Z :=
  match r with Sr16000 => js "16000" | Sr22050 => js "22050" | Sr44100 => js "44100" end.

(** ['দয়া করে একটি ইউটিউব লিংক দিন'] *)
Definition msg_enter_link : list Z :=
  [2470; 2479; 2492; 2494; 32; 2453; 2480; 2503; 32; 2447; 2453; 2463; 2495; 32;
   2439; 2441; 2463; 2495; 2441; 2476; 32; 2482; 2495; 2434; 2453; 32; 2470; 2495; 2472].
(** ['দয়া করে একটি বৈধ ইউটিউব লিংক দিন'] *)
Definition msg_valid_link : list Z :=
  [2470; 2479; 2492; 2494; 32; 2453; 2480; 2503; 32; 2447; 2453; 2463; 2495; 32;
   2476; 2504; 2471; 32; 2439; 2441; 2463; 2495; 2441; 2476; 32; 2482; 2495; 2434;
   2453; 32; 2470; 2495; 2472].
(** ['ডাউনলোড ব্যর্থ হয়েছে'] *)
Definition msg_download_failed : list Z :=
  [2465; 2494; 2441; 2472; 2482; 2507; 2465; 32; 2476; 2509; 2479; 2480; 2509; 2469;
   32; 2489; 2479; 2492; 2503; 2459; 2503].

(** What [fetch('/api/download')] answers: a non-ok status with its JSON
    body, or an ok response with its bytes and headers. *)
Inductive ServerReply :=
| ReplyNotOk (errorData : JSValue)
| ReplyOk (bytes : list Byte.byte) (headers : list (list Z * list Z)).

Inductive ClientEvent :=
| SetState (s : DownloadState)
| FetchDownload (body : JSValue)
| SaveFile (filename : list Z) (b : Blob).

(** [JSON.stringify] of the request object, as the server parses it back. *)
Definition download_body (url : list Z) (b : BitrateOption) (r : SampleRateOption)
    (oldPhoneMode : bool) : JSValue :=
  JObj [(js "url", JStr url); (js "bitrate", JStr (bitrate_string b));
        (js "sampleRate", JStr (sample_rate_string r));
        (js "oldPhoneMode", JBool oldPhoneMode)].

(** Header names compare without regard to ASCII case. *)
Definition ascii_lower (c : Z) : Z := if (65 <=? c) && (c <=? 90) then c + 32 else c.

Definition header_name_eqb (a b : list Z) : bool :=
  if list_eq_dec Z.eq_dec (map ascii_lower a) (map ascii_lower b) then true else false.

(** [parts.join(', ')] *)
Fixpoint join_comma_space (parts : list (list Z)) : list Z :=
  match parts with
  | [] => []
  | [p] => p
  | p :: ps => p ++ 44 :: 32 :: join_comma_space ps
  end.

(** [response.headers.get(name)] on the response's header list, in the
    order received: the values of every header whose name matches [name]
    case-insensitively, each stored without leading and trailing HTTP
    whitespace, joined by [", "]; [None] is [null] (no such header). *)
Definition header_get (name : list Z) (hs : list (list Z * list Z)) : option (list Z) :=
  match map (fun h => header_value_normalize (snd h))
            (filter (fun h => header_name_eqb name (fst h)) hs) with
  | [] => None
  | vs => Some (join_comma_space vs)
  end.

(** [h || d] on [string | null]. *)
Definition header_or (h : option (list Z)) (d : list Z) : list Z :=
  match h with Some ((_ :: _) as v) => v | _ => d end.

(** [new Error(errorData.error || 'ডাউনলোড ব্যর্থ হয়েছে').message]: the
    constructor applies [ToString] to a truthy [error] field; reading
    [.error] of [null], or a [ToString] that throws, raises a [TypeError]
    whose message is shown instead. *)
Definition not_ok_message (errorData : JSValue) : list Z :=
  match get_prop errorData (js "error") with
  | None => js "Cannot read properties of null"
  | Some v =>
      if truthy v then match js_to_string v with inr s => s | inl e => e end
      else msg_download_failed
  end.

(** [50 + (progress * 0.4)]: for the values [convertToMp3] reports (20, 50,
    80, 100) the double products are exact, so rationals give the same
    numbers. *)
Definition scaled_progress (p : Z) : Q := (50 + inject_Z p * (2 # 5))%Q.

Definition with_progress (s : DownloadState) (p : Q) : DownloadState :=
  mkDState (isDownloading s) p (status s) (error s).

Fixpoint progress_states (s : DownloadState) (reports : list Z) : list DownloadState :=
  match reports with
  | [] => []
  | p :: ps => let s' := with_progress s (scaled_progress p) in s' :: progress_states s' ps
  end.

Definition last_state (d : DownloadState) (l : list DownloadState) : DownloadState :=
  last l d.

(** One click on the download button, from state [prev], with the
    component's current [url] and options, against the server's [reply].
    The progress callback only updates the state, so running
    [convertToMp3] with [record_progress] and replaying its reports gives
    the same sequence of states. *)
Definition handleDownload (prev : DownloadState) (url : list Z)
    (selectedBitrate : BitrateOption) (selectedSampleRate : SampleRateOption)
    (useOldPhoneMode : bool) (reply : ServerReply) : list ClientEvent :=
  if negb (match trim url with [] => false | _ => true end) then
    [SetState (mkDState (isDownloading prev) (progress prev) Failed (Some msg_enter_link))]
  else if negb (validateYouTubeUrl url) then
    [SetState (mkDState (isDownloading prev) (progress prev) Failed (Some msg_valid_link))]
  else
    let s1 := mkDState true 10%Q Downloading None in
    SetState s1 ::
    FetchDownload (download_body url selectedBitrate selectedSampleRate useOldPhoneMode) ::
    match reply with
    | ReplyNotOk errorData =>
        [SetState (mkDState false 0%Q Failed (Some (not_ok_message errorData)))]
    | ReplyOk audioBuffer headers =>
        let s2 := mkDState (isDownloading s1) 50%Q Converting (error s1) in
        let videoTitle := header_or (header_get (js "X-Video-Title") headers) default_title in
        let responseBitrate :=
          header_or (header_get (js "X-Bitrate") headers) (bitrate_string selectedBitrate) in
        let responseSampleRate :=
          header_or (header_get (js "X-Sample-Rate") headers)
                    (sample_rate_string selectedSampleRate) in
        let responseOldPhoneMode :=
          match header_get (js "X-Old-Phone-Mode") headers with
          | Some v => if list_eq_dec Z.eq_dec v (js "true") then true else false
          | None => false
          end in
        let '(_, tr) := convertToMp3 audioBuffer responseBitrate responseSampleRate
                          responseOldPhoneMode (Some record_progress) [] in
        let states := progress_states s2 (progress_reports tr) in
        let s3 := last_state s2 states in
        let s4 := mkDState (isDownloading s3) 100%Q Completed (error s3) in
        let mp3Blob := match settled tr with Some b => b | None => mkBlob [] [] end in
        SetState s2 :: map SetState states ++
        [SetState s4; SaveFile (sanitize_compat videoTitle ++ js ".mp3") mp3Blob]
    end.

Fixpoint states_of (evs : list ClientEvent) : list DownloadState :=
  match evs with
  | [] => []
  | SetState s :: evs' => s :: states_of evs'
  | _ :: evs' => states_of evs'
  end.

(** The other client component (src/app/api/test/route.ts, lines 314-315)
    names the file without a fallback. *)
Definition cleanTitle_v2 (videoTitle : list Z) : list Z :=
  replace_runs is_space underscore false (strip_chars standard_keep videoTitle).

Definition filename_v2 (videoTitle : list Z) : list Z := cleanTitle_v2 videoTitle ++ js ".mp3".

(* ------------------------------------------------------------------ *)
(** ** [encodeURIComponent] *)

Definition uri_unreserved (c : Z) : bool :=
  ((65 <=? c) && (c <=? 90)) || ((97 <=? c) && (c <=? 122)) || ((48 <=? c) && (c <=? 57))
  || existsb (Z.eqb c) [45; 95; 46; 33; 126; 42; 39; 40; 41].

Definition hex_digit (d : Z) : Z := if d <? 10 then 48 + d else 55 + d.

Definition percent_byte (b : Z) : list Z := [37; hex_digit (b / 16); hex_digit (b mod 16)].

(** UTF-8 bytes of a code point. *)
Definition utf8 (cp : Z) : list Z :=
  if cp <? 128 then [cp]
  else if cp <? 2048 then [192 + cp / 64; 128 + cp mod 64]
  else if cp <? 65536 then [224 + cp / 4096; 128 + (cp / 64) mod 64; 128 + cp mod 64]
  else [240 + cp / 262144; 128 + (cp / 4096) mod 64; 128 + (cp / 64) mod 64; 128 + cp mod 64].

Definition is_high_surrogate (c : Z) : bool := (55296 <=? c) && (c <=? 56319).
Definition is_low_surrogate (c : Z) : bool := (56320 <=? c) && (c <=? 57343).

(** [None] is the [URIError] a lone surrogate raises. *)
Fixpoint encodeURIComponent (s : list Z) : option (list Z) :=
  match s with
  | [] => Some []
  | c :: rest =>
      if uri_unreserved c then option_map (cons c) (encodeURIComponent rest)
      else if is_high_surrogate c then
        match rest with
        | d :: rest' =>
            if is_low_surrogate d then
              option_map (app (flat_map percent_byte
                                 (utf8 ((c - 55296) * 1024 + (d - 56320) + 65536))))
                         (encodeURIComponent rest')
            else None
        | [] => None
        end
      else if is_low_surrogate c then None
      else option_map (app (flat_map percent_byte (utf8 c))) (encodeURIComponent rest)
  end.

(** Decimal digits of [Number.prototype.toString] on a length. *)
Definition decimal (n : nat) : list Z :=
  js (NilEmpty.string_of_uint (Nat.to_uint n)).

(* ------------------------------------------------------------------ *)
(** ** The plain download route (part_000, lines 4-76) *)

Definition download_basic_POST (body : JSValue) : Prog :=
  match get_prop body (js "url") with
  | None => Done (server_error destructure_error)
  | Some url =>
    if negb (truthy url) then Done (error_json 400 "URL is required") else
    ValidateURL url (fun ok =>
    if negb ok then Done (error_json 400 "Invalid YouTube URL") else
    GetInfo url (fun info =>
    let title := match info with
                 | Some i => sanitize_standard (videoTitle i)
                 | None => default_title
                 end in
    Stream url HighestAudioOnly (fun res =>
    match res with
    | inl msg => Done (server_error msg)
    | inr audioBuffer =>
        match encodeURIComponent title with
        | None => Done (server_error (js "URI malformed"))
        | Some enc =>
            Done (AudioResponse 200 audioBuffer
                    [(js "Content-Type", js "audio/mp4");
                     (js "Content-Disposition",
                      js "attachment; filename=" ++ [34] ++ enc ++ js ".m4a" ++ [34]);
                     (js "Content-Length", decimal (List.length audioBuffer));
                     (js "X-Video-Title", title)])
        end
    end)))
  end.

(* ------------------------------------------------------------------ *)
(** ** The test route's [GET] (src/app/api/test/route.ts, lines 4-39) *)

Definition rick_url : list Z := js "https://www.youtube.com/watch?v=dQw4w9WgXcQ".

(** [NextResponse.json(body)] without an init answers status 200. *)
Definition test_GET : Prog :=
  ValidateURL (JStr rick_url) (fun isValid =>
  if negb isValid then
    Done (JsonResponse 200 [(js "status", JStr (js "error"));
                            (js "message", JStr (js "URL validation failed"))])
  else
  GetInfo (JStr rick_url) (fun info =>
  match info with
  | Some i => Done (JsonResponse 200 [(js "status", JStr (js "success"));
                                      (js "title", JStr (videoTitle i))])
  | None => Done (JsonResponse 200 [(js "status", JStr (js "error"));
                                    (js "message", JStr (js "Info extraction failed"))])
  end)).

(* ------------------------------------------------------------------ *)
(** ** Available qualities of the test route's [POST] (route.ts, lines 65-77) *)

(** A ytdl format with the fields this list reads besides [Format]'s. *)
Record FullFormat := mkFullFormat {
  base : Format;
  qualityLabel : option (list Z);
  container : list Z
}.

Record QualityOpt := mkQualityOpt {
  quality : option (list Z);
  q_itag : Z;
  q_container : list Z
}.

(** [s.replace('p', '')]: only the first [p] goes. *)
Fixpoint remove_first_p (s : list Z) : list Z :=
  match s with
  | [] => []
  | c :: cs => if c =? 112 then cs else c :: remove_first_p cs
  end.

(** Value of a digit in radix up to 36 ([36] for a non-digit). *)
Definition digit_value (c : Z) : Z :=
  if (48 <=? c) && (c <=? 57) then c - 48
  else if (97 <=? c) && (c <=? 122) then c - 87
  else if (65 <=? c) && (c <=? 90) then c - 55
  else 36.

Fixpoint radix_prefix (r : Z) (s : list Z) : list Z :=
  match s with
  | c :: cs => if digit_value c <? r then c :: radix_prefix r cs else []
  | [] => []
  end.

Definition radix_value (r : Z) (ds : list Z) : Z :=
  fold_left (fun acc c => acc * r + digit_value c) ds 0.

(** [parseInt(s)] with no radix: leading white space goes, then one sign,
    then a [0x]/[0X] prefix selects radix 16 (else 10); the longest run of
    digits of that radix is read.  [None] is [NaN] (no digit); the value is
    exact (as a double it is exact below [2^53]), and [-0] is [0]. *)
Definition js_parseInt (s : list Z) : option Z :=
  let s1 := trim_start s in
  let '(sign, s2) :=
    match s1 with
    | c :: t => if c =? 45 then (-1, t) else if c =? 43 then (1, t) else (1, s1)
    | [] => (1, s1)
    end in
  let '(r, s3) :=
    match s2 with
    | c :: x :: t => if (c =? 48) && ((x =? 120) || (x =? 88)) then (16, t) else (10, s2)
    | _ => (10, s2)
    end in
  match radix_prefix r s3 with
  | [] => None
  | ds => Some (sign * radix_value r ds)
  end.

(** The comparator's [parseInt(q.quality?.replace('p', '') || '0')]. *)
Definition resolution_key (q : QualityOpt) : option Z :=
  js_parseInt (match quality q with
               | Some s => match remove_first_p s with [] => js "0" | t => t end
               | None => js "0"
               end).

Fixpoint insert_by {A} (key : A -> Z) (x : A) (l : list A) : list A :=
  match l with
  | [] => [x]
  | y :: ys => if key x <? key y then y :: insert_by key x ys else x :: y :: ys
  end.

Fixpoint sort_by {A} (key : A -> Z) (l : list A) : list A :=
  match l with
  | [] => []
  | x :: xs => insert_by key x (sort_by key xs)
  end.

(** The comparator's key once every key is a number. *)
Definition quality_key (q : QualityOpt) : Z :=
  match resolution_key q with Some n => n | None => 0 end.

Definition quality_truthy (q : QualityOpt) : bool :=
  match quality q with Some (_ :: _) => true | _ => false end.

(** A key the comparator [bRes - aRes] handles exactly: a number (not
    [NaN]) that a double holds exactly. *)
Definition exact_key (q : QualityOpt) : bool :=
  match resolution_key q with Some n => Z.abs n <=? 2 ^ 53 | None => false end.

(** [videoFormats], sorted by the (stable) [Array.prototype.sort] with the
    comparator [bRes - aRes]; [None] when some key is [NaN], where the
    comparator is inconsistent and the resulting order is left to the
    engine, or a number too large for a double to hold exactly. *)
Definition available_qualities (fs : list FullFormat) : option (list QualityOpt) :=
  let qs := filter quality_truthy
              (map (fun f => mkQualityOpt (qualityLabel f) (itag (base f)) (container f))
                   (filter (fun f => hasVideo (base f) && hasAudio (base f)) fs)) in
  if forallb exact_key qs
  then Some (sort_by quality_key qs)
  else None.

(* ------------------------------------------------------------------ *)
(** ** Rendering of the download state (ProgressBar.tsx and part_001 lines 465-490) *)

(** ['অডিও ডাউনলোড হচ্ছে...'] *)
Definition msg_status_downloading : list Z :=
  [2437; 2465; 2495; 2451; 32; 2465; 2494; 2441; 2472; 2482; 2507; 2465; 32; 2489; 2458;
   2509; 2459; 2503; 46; 46; 46].
(** ['অডিও প্রক্রিয়াকরণ হচ্ছে...'] *)
Definition msg_status_converting : list Z :=
  [2437; 2465; 2495; 2451; 32; 2474; 2509; 2480; 2453; 2509; 2480; 2495; 2479; 2492; 2494;
   2453; 2480; 2467; 32; 2489; 2458; 2509; 2459; 2503; 46; 46; 46].
(** ['ডাউনলোড সম্পন্ন হয়েছে!'] *)
Definition msg_status_completed : list Z :=
  [2465; 2494; 2441; 2472; 2482; 2507; 2465; 32; 2488; 2478; 2509; 2474; 2472; 2509; 2472;
   32; 2489; 2479; 2492; 2503; 2459; 2503; 33].
(** ['একটি ত্রুটি ঘটেছে'] *)
Definition msg_status_error : list Z :=
  [2447; 2453; 2463; 2495; 32; 2468; 2509; 2480; 2497; 2463; 2495; 32; 2456; 2463; 2503;
   2459; 2503].

(** [getStatusText]; [error || '...'] on [string | undefined]. *)
Definition getStatusText (status : DStatus) (error : option (list Z)) : list Z :=
  match status with
  | Downloading => msg_status_downloading
  | Converting => msg_status_converting
  | Completed => msg_status_completed
  | Failed => match error with Some ((_ :: _) as e) => e | _ => msg_status_error end
  | Idle => []
  end.

(** The bar's width in percent:
    [Math.max(progress, status === 'downloading' || status === 'converting' ? 10 : 0)]. *)
Definition bar_width (progress : Q) (status : DStatus) : Q :=
  let floor := match status with Downloading | Converting => 10%Q | _ => 0%Q end in
  if Qle_bool floor progress then progress else floor.

(** ['ডাউনলোড হচ্ছে...'] *)
Definition msg_button_downloading : list Z :=
  [2465; 2494; 2441; 2472; 2482; 2507; 2465; 32; 2489; 2458; 2509; 2459; 2503; 46; 46; 46].
(** ['প্রক্রিয়াকরণ হচ্ছে...'] *)
Definition msg_button_processing : list Z :=
  [2474; 2509; 2480; 2453; 2509; 2480; 2495; 2479; 2492; 2494; 2453; 2480; 2467; 32; 2489;
   2458; 2509; 2459; 2503; 46; 46; 46].

(** The download button's content: a spinner with a text, or the idle
    label (its bitrate and sample-rate text is left out). *)
Inductive ButtonContent := Busy (text : list Z) | ReadyLabel.

(** [disabled={downloadState.isDownloading || !url.trim()}] and the
    button's children. *)
Definition download_button (s : DownloadState) (url : list Z) : bool * ButtonContent :=
  (isDownloading s || negb (match trim url with [] => false | _ => true end),
   if isDownloading s then
     Busy (match status s with Downloading => msg_button_downloading
                               | _ => msg_button_processing end)
   else ReadyLabel).

(** [resetDownload] (part_001 lines 250-262): the state it sets; it also
    clears the URL. *)
Definition resetDownload_state : DownloadState := mkDState false 0 Idle None.

(* ------------------------------------------------------------------ *)
(** ** Video preview ([fetchVideoInfo], part_001 lines 86-117) *)

Inductive PreviewEvent :=
| SetIsLoadingInfo (b : bool)
| SetVideoInfo (title : option JSValue)   (** [null], or an info whose [title] is shown *)
| FetchTest (body : JSValue).

(** [await response.json()] on what the test route answers: the JSON
    object of a JSON response; [None] when parsing throws. *)
Definition response_json (r : Response) : option (list (list Z * JSValue)) :=
  match r with JsonResponse _ body => Some body | AudioResponse _ _ _ => None end.

(** [data.status === 'success'] *)
Definition is_success (data : list (list Z * JSValue)) : bool :=
  match lookup_field (js "status") data with
  | JStr s => if list_eq_dec Z.eq_dec s (js "success") then true else false
  | _ => false
  end.

(** One call of [fetchVideoInfo] against the answer [data] ([None] when
    the fetch or the JSON parsing throws; the [catch] only logs). *)
Definition fetchVideoInfo (videoUrl : list Z) (data : option (list (list Z * JSValue)))
  : list PreviewEvent :=
  if negb (validateYouTubeUrl videoUrl) then [] else
  [SetIsLoadingInfo true; SetVideoInfo None; FetchTest (JObj [(js "url", JStr videoUrl)])] ++
  match data with
  | Some d => if is_success d then [SetVideoInfo (Some (lookup_field (js "title") d))] else []
  | None => []
  end ++ [SetIsLoadingInfo false].

(** A progress callback that throws when told [n] and records the other
    reports. *)
Definition throw_at (n : Z) (p : Z) : M unit :=
  if p =? n then (fun tr => (Thrown (js "callback failed"), tr)) else record_progress p.

(* ================================================================== *)
(** * Properties *)

(** ** Sorting and searching *)

(** Strongly sorted by bitrate, highest first. *)
Fixpoint descending (l : list Format) : Prop :=
  match l with
  | [] => True
  | x :: t => (forall y, In y t -> bitrate_or_0 y <= bitrate_or_0 x) /\ descending t
  end.

Lemma in_insert_desc x l y : In y (insert_desc x l) <-> y = x \/ In y l.
Proof.
  induction l as [|z zs IH]; simpl.
  - intuition congruence.
  - destruct (bitrate_or_0 x <? bitrate_or_0 z); simpl; rewrite ?IH; intuition congruence.
Qed.

Lemma in_sort_desc l y : In y (sort_desc l) <-> In y l.
Proof.
  induction l as [|x xs IH]; simpl.
  - tauto.
  - rewrite in_insert_desc, IH. intuition congruence.
Qed.

Lemma insert_desc_descending x l : descending l -> descending (insert_desc x l).
Proof.
  induction l as [|y ys IH]; simpl; intros Hd.
  - split; [intros z []|exact I].
  - destruct Hd as [Hy Hys].
    destruct (bitrate_or_0 x <? bitrate_or_0 y) eqn:E; simpl.
    + apply Z.ltb_lt in E. split; [|exact (IH Hys)].
      intros z Hz. apply in_insert_desc in Hz as [->|Hz]; [lia|auto].
    + apply Z.ltb_ge in E. split; [|split; assumption].
      intros z [<-|Hz]; [lia|]. specialize (Hy z Hz). lia.
Qed.

Lemma sort_desc_descending l : descending (sort_desc l).
Proof.
  induction l as [|x xs IH]; simpl; [exact I|].
  now apply insert_desc_descending.
Qed.

Lemma in_audioFormats cs f :
  In f (audioFormats cs) <-> In f cs /\ audio_only f = true /\ bitrate_truthy f = true.
Proof.
  unfold audioFormats. rewrite in_sort_desc, !filter_In. intuition.
Qed.

Lemma find_first_some {A} (p : A -> bool) l x :
  find_first p l = Some x ->
  exists pre post, l = pre ++ x :: post /\ (forall y, In y pre -> p y = false) /\ p x = true.
Proof.
  induction l as [|z zs IH]; simpl; [discriminate|].
  destruct (p z) eqn:E.
  - intros [= <-]. exists [], zs. simpl. split; [reflexivity|]. split; [tauto|exact E].
  - intros H. destruct (IH H) as (pre & post & -> & Hpre & Hx).
    exists (z :: pre), post. split; [reflexivity|]. split; [|exact Hx].
    intros y [<-|Hy]; auto.
Qed.

Lemma find_first_exists {A} (p : A -> bool) l x :
  In x l -> p x = true -> exists y, find_first p l = Some y.
Proof.
  induction l as [|z zs IH]; simpl; [tauto|].
  intros [<-|Hx] Hp.
  - rewrite Hp. eauto.
  - destruct (p z); eauto.
Qed.

Lemma find_first_in {A} (p : A -> bool) l x : find_first p l = Some x -> In x l.
Proof.
  intros H. destruct (find_first_some p l x H) as (pre & post & -> & _ & _).
  apply in_or_app. simpl. auto.
Qed.

Lemma select_in_audioFormats b cs f :
  select b cs = Some f -> In f (audioFormats cs).
Proof.
  unfold select.
  destruct (b =? 128); [|destruct (b =? 192)]; unfold or_else;
    repeat match goal with
    | |- context [find_first ?p ?l] =>
        let E := fresh "E" in destruct (find_first p l) eqn:E
    end;
    try (intros [= <-]; eapply find_first_in; eassumption);
    destruct (audioFormats cs) as [|h t]; simpl; try discriminate;
    intros [= <-]; simpl; auto.
Qed.

Lemma select_none_iff b cs : select b cs = None <-> audioFormats cs = [].
Proof.
  unfold select.
  destruct (audioFormats cs) as [|h t]; simpl.
  - destruct (b =? 128); [|destruct (b =? 192)]; simpl; tauto.
  - split; [|discriminate].
    match goal with
    | |- match ?x with Some _ => _ | None => _ end = None -> _ => destruct x
    end; discriminate.
Qed.

(** ** Format Selector *)

(** C1: when the audio-only candidates with a known bitrate include one in
    the ideal range of the requested class (96..160 for 128, 160..256 for
    192), [select] returns the first ideal-range candidate of the filtered
    set sorted by bitrate, highest first. *)
Theorem select_prefers_ideal_range (b : Z) (Hb : b = 128 \/ b = 192)
    (cs : list Format) (g : Format)
    (Hg : In g cs) (Hk : known_audio_only g = true) (Hi : ideal_range b g = true) :
  exists f pre post,
    audioFormats cs = pre ++ f :: post /\
    (forall h, In h pre -> ideal_range b h = false) /\
    ideal_range b f = true /\
    select b cs = Some f.
Proof.
  assert (Hin : In g (audioFormats cs)).
  { apply in_audioFormats. unfold known_audio_only in Hk.
    apply andb_true_iff in Hk as [Ha Hbr]. split; [exact Hg|]. split; [exact Ha|].
    unfold ideal_range, in_128_range, in_192_range, bitrate_or_0 in Hi.
    unfold bitrate_truthy. destruct (audioBitrate g) as [n|]; [|discriminate].
    destruct (b =? 128); apply andb_true_iff in Hi as [H1 H2];
      apply Z.leb_le in H1; apply Z.leb_le in H2;
      apply negb_true_iff, Z.eqb_neq; lia. }
  destruct (find_first_exists (ideal_range b) _ _ Hin Hi) as [f Hf].
  destruct (find_first_some _ _ _ Hf) as (pre & post & Hsplit & Hpre & Hfi).
  exists f, pre, post. split; [exact Hsplit|]. split; [exact Hpre|]. split; [exact Hfi|].
  destruct Hb as [-> | ->].
  - assert (E : find_first in_128_range (audioFormats cs) = Some f) by exact Hf.
    unfold select. cbv zeta. rewrite E. reflexivity.
  - assert (E : find_first in_192_range (audioFormats cs) = Some f) by exact Hf.
    unfold select. cbv zeta. rewrite E. reflexivity.
Qed.

Lemma select_prefers_ideal_range_witness :
  exists f pre post,
    audioFormats [audio 1 320; audio 2 128] = pre ++ f :: post /\
    (forall h, In h pre -> ideal_range 128 h = false) /\
    ideal_range 128 f = true /\
    select 128 [audio 1 320; audio 2 128] = Some f.
Proof.
  apply (select_prefers_ideal_range 128 (or_introl eq_refl) _ (audio 2 128));
    [simpl; auto | reflexivity | reflexivity].
Defined.

(** C2: class 128 on audio-only candidates of 96, 128, 160 and 320 kbps
    selects the 160 kbps one (first ideal-range match, highest first), not
    the 128 kbps one. *)
Theorem select_128_tie_outcome :
  select 128 [audio 1 96; audio 2 128; audio 3 160; audio 4 320] = Some (audio 3 160)
  /\ select 128 [audio 1 96; audio 2 128; audio 3 160; audio 4 320] <> Some (audio 2 128).
Proof. split; [reflexivity | discriminate]. Qed.

(** C3 (as stated, refuted): a non-empty candidate list holding only a
    format with video makes [select] return [undefined], not an audio-only
    candidate. *)
Lemma select_nonempty_counterexample :
  let cs := [mkFormat true true (Some 128) 18] in
  cs <> [] /\ select 128 cs = None /\ select 192 cs = None.
Proof. simpl. split; [discriminate|split; reflexivity]. Qed.

(** C3 (amended): whatever [select] returns is one of the candidates, with
    [hasAudio = true] and [hasVideo = false]; it returns [undefined]
    exactly when no candidate is audio-only with a non-zero bitrate. *)
Theorem select_result_audio_only (b : Z) (cs : list Format) :
  (forall f, select b cs = Some f -> In f cs /\ hasAudio f = true /\ hasVideo f = false) /\
  (select b cs = None <->
   forall f, In f cs -> audio_only f = true -> bitrate_truthy f = false).
Proof.
  split.
  - intros f Hs. apply select_in_audioFormats, in_audioFormats in Hs as (Hin & Ha & _).
    unfold audio_only in Ha. apply andb_true_iff in Ha as [Ha Hv].
    apply negb_true_iff in Hv. auto.
  - rewrite select_none_iff. split.
    + intros He f Hin Ha. destruct (bitrate_truthy f) eqn:E; [|reflexivity].
      assert (In f (audioFormats cs)) by (apply in_audioFormats; auto).
      rewrite He in H. destruct H.
    + intros Hno. destruct (audioFormats cs) as [|f t] eqn:E; [reflexivity|].
      assert (Hf : In f (audioFormats cs)) by (rewrite E; simpl; auto).
      apply in_audioFormats in Hf as (Hin & Ha & Ht).
      rewrite (Hno f Hin Ha) in Ht. discriminate.
Qed.

(** C10: for class 192, when the one-sided tier ([>= 192], highest first)
    finds a candidate, it is the head of the sorted filtered set, i.e. the
    one the global-best fallback [audioFormats[0]] picks, and it has the
    highest bitrate of the set. *)
Theorem above_192_is_global_best (cs : list Format) (f : Format)
    (H : find_first above_192 (audioFormats cs) = Some f) :
  hd_error (audioFormats cs) = Some f /\
  (forall g, In g (audioFormats cs) -> bitrate_or_0 g <= bitrate_or_0 f).
Proof.
  assert (Hd : descending (audioFormats cs)) by apply sort_desc_descending.
  destruct (audioFormats cs) as [|h t]; simpl in *; [discriminate|].
  destruct Hd as [Hh _].
  destruct (above_192 h) eqn:Eh.
  - injection H as <-. split; [reflexivity|].
    intros g [<-|Hg]; [lia|auto].
  - exfalso. apply find_first_some in H as (pre & post & -> & _ & Hf).
    unfold above_192 in Eh, Hf. apply Z.leb_gt in Eh. apply Z.leb_le in Hf.
    assert (bitrate_or_0 f <= bitrate_or_0 h) by (apply Hh, in_or_app; simpl; auto).
    lia.
Qed.

Lemma above_192_is_global_best_witness :
  find_first above_192 (audioFormats [audio 1 128; audio 2 320; audio 3 256]) = Some (audio 2 320) /\
  hd_error (audioFormats [audio 1 128; audio 2 320; audio 3 256]) = Some (audio 2 320) /\
  (forall g, In g (audioFormats [audio 1 128; audio 2 320; audio 3 256]) ->
             bitrate_or_0 g <= bitrate_or_0 (audio 2 320)).
Proof.
  assert (H : find_first above_192 (audioFormats [audio 1 128; audio 2 320; audio 3 256])
              = Some (audio 2 320)) by reflexivity.
  split; [exact H|]. exact (above_192_is_global_best _ _ H).
Defined.

(** ** Title sanitisation *)

Ltac zbool :=
  repeat (rewrite ?Bool.orb_true_iff, ?Bool.andb_true_iff, ?Z.leb_le, ?Z.eqb_eq in *).

Lemma word_not_space c : is_word c = true -> is_space c = false.
Proof.
  unfold is_word, is_space. intros H. apply Bool.not_true_iff_false. intros H'.
  zbool. lia.
Qed.

Lemma hyphen_not_space : is_space hyphen = false.
Proof. reflexivity. Qed.

Lemma underscore_word : is_word underscore = true.
Proof. reflexivity. Qed.

Lemma filter_all {A} (p : A -> bool) l : (forall x, In x l -> p x = true) -> filter p l = l.
Proof.
  induction l as [|x xs IH]; simpl; intros H; [reflexivity|].
  rewrite (H x (or_introl eq_refl)), IH; auto.
Qed.

Lemma in_replace_runs p r b s c :
  In c (replace_runs p r b s) -> c = r \/ (In c s /\ p c = false).
Proof.
  revert b. induction s as [|d ds IH]; simpl; intros b; [tauto|].
  destruct (p d) eqn:Ed; [destruct b|]; simpl.
  - intros H. destruct (IH _ H); tauto.
  - intros [<-|H]; [auto|]. destruct (IH _ H); tauto.
  - intros [<-|H]; [auto|]. destruct (IH _ H); tauto.
Qed.

Lemma replace_runs_id p r b s : (forall c, In c s -> p c = false) -> replace_runs p r b s = s.
Proof.
  revert b. induction s as [|d ds IH]; simpl; intros b H; [reflexivity|].
  rewrite (H d (or_introl eq_refl)). f_equal. apply IH. auto.
Qed.

Lemma trim_start_id s : (forall c, In c s -> is_space c = false) -> trim_start s = s.
Proof.
  destruct s as [|c cs]; simpl; intros H; [reflexivity|].
  now rewrite (H c (or_introl eq_refl)).
Qed.

Lemma trim_id s : (forall c, In c s -> is_space c = false) -> trim s = s.
Proof.
  intros H. unfold trim. rewrite (trim_start_id s H).
  rewrite trim_start_id; [apply rev_involutive|].
  intros c Hc. apply H. now apply in_rev.
Qed.

(** No two consecutive code units equal to [r]. *)
Fixpoint no_adjacent (r : Z) (s : list Z) : Prop :=
  match s with
  | [] => True
  | c :: t => (c = r -> hd_error t <> Some r) /\ no_adjacent r t
  end.

Lemma replace_runs_no_adjacent p r b s :
  p r = true ->
  no_adjacent r (replace_runs p r b s) /\
  (b = true -> hd_error (replace_runs p r b s) <> Some r).
Proof.
  intros Hr. revert b. induction s as [|d ds IH]; simpl; intros b.
  - split; [exact I|discriminate].
  - destruct (p d) eqn:Ed; [destruct b|]; simpl.
    + apply IH.
    + destruct (IH true) as [H1 H2]. split; [|discriminate].
      split; [intros _; apply H2; reflexivity|exact H1].
    + destruct (IH false) as [H1 _].
      assert (d <> r) by (intros ->; congruence).
      split; [split; [intros E; congruence|exact H1]|].
      intros _ [= E]. congruence.
Qed.

Lemma replace_runs_no_adjacent_id r b s :
  no_adjacent r s -> (b = true -> hd_error s <> Some r) ->
  replace_runs (fun c => c =? r) r b s = s.
Proof.
  revert b. induction s as [|d ds IH]; simpl; [reflexivity|]. intros b [Hd Hds] Hb.
  destruct (Z.eqb_spec d r) as [->|Hne].
  - destruct b; [exfalso; apply (Hb eq_refl); reflexivity|].
    f_equal. apply IH; [exact Hds|]. intros _. exact (Hd eq_refl).
  - f_equal. apply IH; [exact Hds|discriminate].
Qed.

(** Prefixes keep the shape properties. *)
Lemma no_adjacent_prefix r p k : no_adjacent r (p ++ k) -> no_adjacent r p.
Proof.
  induction p as [|c cs IH]; simpl; [auto|].
  intros [Hc Hcs]. split; [|auto].
  intros E. specialize (Hc E). destruct cs; simpl in *; [discriminate|exact Hc].
Qed.

Lemma hd_prefix (p k : list Z) x : hd_error (p ++ k) <> Some x -> hd_error p <> Some x.
Proof. destruct p; simpl; [discriminate|auto]. Qed.

Lemma drop_trailing_underscore_prefix s :
  s = drop_trailing_underscore s \/ s = drop_trailing_underscore s ++ [underscore].
Proof.
  unfold drop_trailing_underscore.
  destruct (rev s) as [|c r] eqn:E.
  - left. apply (f_equal (@rev Z)) in E. rewrite rev_involutive in E. now subst.
  - destruct (Z.eqb_spec c underscore) as [->|_].
    + right. apply (f_equal (@rev Z)) in E. rewrite rev_involutive in E. now subst.
    + now left.
Qed.

Lemma firstn_prefix (n : nat) (s : list Z) : exists k, s = firstn n s ++ k.
Proof. exists (skipn n s). symmetry. apply firstn_skipn. Qed.

(** Shape of a compatibility-mode title: word units only, no leading
    underscore, no two underscores in a row. *)
Definition cleaned (s : list Z) : Prop :=
  (forall c, In c s -> is_word c = true) /\
  hd_error s <> Some underscore /\ no_adjacent underscore s.

Definition compat_shape (s : list Z) : Prop :=
  cleaned s /\ (List.length s <= 50)%nat /\ s <> [].

Lemma cleaned_prefix p k : cleaned (p ++ k) -> cleaned p.
Proof.
  intros (Hw & Hh & Ha). split; [|split].
  - intros c Hc. apply Hw, in_or_app. auto.
  - exact (hd_prefix p k _ Hh).
  - exact (no_adjacent_prefix _ p k Ha).
Qed.

Lemma cleaned_drop_trailing s : cleaned s -> cleaned (drop_trailing_underscore s).
Proof.
  intros H. destruct (drop_trailing_underscore_prefix s) as [E|E]; rewrite E in H.
  - rewrite <- E in H. rewrite <- E. exact H.
  - exact (cleaned_prefix _ _ H).
Qed.

Lemma default_title_shape : compat_shape default_title.
Proof.
  split; [split; [|split]|split].
  - intros c Hc. unfold default_title in Hc.
    repeat (destruct Hc as [<-|Hc]; [reflexivity|]). destruct Hc.
  - discriminate.
  - unfold default_title, underscore. simpl. repeat split; try discriminate; try lia.
  - simpl. lia.
  - discriminate.
Qed.

Lemma sanitize_compat_shape x : compat_shape (sanitize_compat x).
Proof.
  unfold sanitize_compat.
  set (s1 := strip_chars compat_keep x).
  set (s2 := replace_runs is_space underscore false s1).
  set (s3 := replace_runs (fun c => c =? underscore) underscore false s2).
  assert (H2 : forall c, In c s2 -> is_word c = true).
  { intros c Hc. apply in_replace_runs in Hc as [->|[Hc Hs]]; [reflexivity|].
    unfold s1, strip_chars in Hc. apply filter_In in Hc as [_ Hk].
    unfold compat_keep in Hk. rewrite Hs, orb_false_r in Hk. exact Hk. }
  assert (H3 : forall c, In c s3 -> is_word c = true).
  { intros c Hc. apply in_replace_runs in Hc as [->|[Hc _]]; [reflexivity|auto]. }
  assert (H3a : no_adjacent underscore s3)
    by (apply replace_runs_no_adjacent; reflexivity).
  assert (H4 : cleaned (strip_edge_underscores s3)).
  { unfold strip_edge_underscores.
    destruct s3 as [|c t] eqn:E3.
    - split; [intros c []|split; [discriminate|exact I]].
    - destruct (Z.eqb_spec c underscore) as [->|Hne]; apply cleaned_drop_trailing.
      + destruct H3a as [Hh Ht]. split; [|split; [exact (Hh eq_refl)|exact Ht]].
        intros d Hd. apply H3. simpl. auto.
      + split; [exact H3|]. split; [simpl; congruence|exact H3a]. }
  destruct (firstn 50 (strip_edge_underscores s3)) as [|c t] eqn:E.
  - exact default_title_shape.
  - simpl. rewrite <- E. split; [|split].
    + destruct (firstn_prefix 50 (strip_edge_underscores s3)) as [k Hk].
      rewrite Hk in H4. exact (cleaned_prefix _ _ H4).
    + apply firstn_le_length.
    + rewrite E. discriminate.
Qed.

Lemma sanitize_compat_on_shape s :
  compat_shape s -> sanitize_compat s = drop_trailing_underscore s.
Proof.
  intros ((Hw & Hh & Ha) & Hl & Hne).
  unfold sanitize_compat, strip_chars.
  rewrite filter_all by (intros c Hc; unfold compat_keep; now rewrite Hw).
  rewrite (replace_runs_id is_space underscore false s)
    by (intros c Hc; apply word_not_space; auto).
  rewrite replace_runs_no_adjacent_id by (auto; discriminate).
  assert (E : strip_edge_underscores s = drop_trailing_underscore s).
  { destruct s as [|c t]; [contradiction|]. simpl in Hh |- *.
    destruct (Z.eqb_spec c underscore) as [->|_]; [contradiction|reflexivity]. }
  rewrite E.
  destruct (drop_trailing_underscore_prefix s) as [Es|Es].
  - rewrite <- Es. rewrite firstn_all2 by exact Hl.
    destruct s; [contradiction|reflexivity].
  - rewrite firstn_all2.
    + destruct (drop_trailing_underscore s) as [|c t] eqn:Ed; [|reflexivity].
      simpl in Es. rewrite Es in Hh. contradiction.
    + rewrite Es, length_app in Hl. lia.
Qed.

Lemma sanitize_standard_units x :
  (forall c, In c (sanitize_standard x) -> is_word c || (c =? hyphen) = true) /\
  sanitize_standard x <> [].
Proof.
  unfold sanitize_standard.
  set (r := replace_runs is_space underscore false (strip_chars standard_keep x)).
  assert (Hr : forall c, In c r -> is_word c || (c =? hyphen) = true /\ is_space c = false).
  { intros c Hc. apply in_replace_runs in Hc as [->|[Hc Hs]]; [split; reflexivity|].
    unfold strip_chars in Hc. apply filter_In in Hc as [_ Hk].
    unfold standard_keep in Hk. rewrite Hs, orb_false_r in Hk. auto. }
  rewrite trim_id by (intros c Hc; apply Hr; exact Hc).
  destruct r as [|c t] eqn:E.
  - split; [|discriminate]. intros c Hc.
    apply (proj1 default_title_shape) in Hc. simpl in Hc. now rewrite Hc.
  - split; [|discriminate]. intros d Hd. apply Hr. exact Hd.
Qed.

Lemma sanitize_standard_id s :
  (forall c, In c s -> is_word c || (c =? hyphen) = true) -> s <> [] ->
  sanitize_standard s = s.
Proof.
  intros Hs Hne.
  assert (Hsp : forall c, In c s -> is_space c = false).
  { intros c Hc. specialize (Hs c Hc). apply orb_true_iff in Hs as [Hw|Hh].
    - now apply word_not_space.
    - apply Z.eqb_eq in Hh. now subst. }
  unfold sanitize_standard, strip_chars.
  rewrite filter_all
    by (intros c Hc; unfold standard_keep; specialize (Hs c Hc);
        destruct (is_word c), (is_space c), (c =? hyphen); simpl in *; congruence).
  rewrite replace_runs_id by exact Hsp.
  rewrite trim_id by exact Hsp.
  destruct s; [contradiction|reflexivity].
Qed.

Lemma all_r_no_adjacent r s :
  (forall c, In c s -> c = r) -> no_adjacent r s -> s = [] \/ s = [r].
Proof.
  destruct s as [|c [|d t]]; simpl; intros Hs Ha; [auto| |].
  - right. now rewrite (Hs c (or_introl eq_refl)).
  - exfalso. destruct Ha as [Hc _].
    apply (Hc (Hs c (or_introl eq_refl))). simpl.
    now rewrite (Hs d (or_intror (or_introl eq_refl))).
Qed.

Lemma replace_runs_first_run p r s c t :
  s = c :: t -> p c = true -> exists u, replace_runs p r false s = r :: u.
Proof. intros -> Hc. simpl. rewrite Hc. eexists. reflexivity. Qed.

Lemma replace_runs_last_run p r c :
  p c = true -> forall t b,
  (b = true /\ replace_runs p r b (t ++ [c]) = []) \/
  exists u, replace_runs p r b (t ++ [c]) = u ++ [r].
Proof.
  intros Hc t. induction t as [|e t IH]; intros b; simpl.
  - rewrite Hc. destruct b; [left; auto|right; exists []; reflexivity].
  - destruct (p e).
    + destruct b.
      * exact (IH true).
      * right. destruct (IH true) as [[_ ->]|[u ->]].
        -- exists []. reflexivity.
        -- exists (r :: u). reflexivity.
    + right. destruct (IH false) as [[H _]|[u ->]]; [discriminate|].
      exists (e :: u). reflexivity.
Qed.

(** C5 (code defect): standard mode deletes every code unit that is not
    an ASCII letter, ASCII digit, underscore, whitespace or hyphen, turns
    each whitespace run into one underscore and falls back to
    ["youtube_audio"] on an empty result; its [.trim()] runs after the
    whitespace is gone and removes nothing, so when the kept units begin
    (end) with whitespace the title begins (ends) with an underscore. *)
Theorem sanitize_standard_edge_underscores (x : list Z) :
  sanitize x false =
    or_default (replace_runs is_space underscore false (strip_chars standard_keep x)) /\
  (forall c, In c (sanitize x false) -> is_word c || (c =? hyphen) = true) /\
  (forall c t, strip_chars standard_keep x = c :: t -> is_space c = true ->
     exists u, sanitize x false = underscore :: u) /\
  (forall c t, strip_chars standard_keep x = t ++ [c] -> is_space c = true ->
     exists u, sanitize x false = u ++ [underscore]).
Proof.
  assert (E : sanitize x false =
                or_default (replace_runs is_space underscore false
                              (strip_chars standard_keep x))).
  { simpl. unfold sanitize_standard. f_equal. apply trim_id.
    intros c Hc. apply in_replace_runs in Hc as [->|[_ Hs]]; [reflexivity|exact Hs]. }
  split; [exact E|]. split; [apply sanitize_standard_units|]. split.
  - intros c t Hx Hc. rewrite E.
    destruct (replace_runs_first_run is_space underscore _ c t Hx Hc) as [u ->].
    exists u. reflexivity.
  - intros c t Hx Hc. rewrite E, Hx.
    destruct (replace_runs_last_run is_space underscore c Hc t false) as [[H _]|[u ->]];
      [discriminate|].
    exists u. destruct u; reflexivity.
Qed.

Lemma sanitize_standard_edge_underscores_witness :
  (exists u, sanitize (js " ") false = underscore :: u) /\
  (exists u, sanitize (js "a ") false = u ++ [underscore]).
Proof.
  split.
  - exact (proj1 (proj2 (proj2 (sanitize_standard_edge_underscores (js " "))))
             32 [] eq_refl eq_refl).
  - exact (proj2 (proj2 (proj2 (sanitize_standard_edge_underscores (js "a "))))
             32 [97] eq_refl eq_refl).
Defined.

(** C6 (as stated, refuted): in compatibility mode a title whose 51st
    unit follows an underscore is truncated to end in [_]; sanitizing again
    removes that underscore. *)
Lemma sanitize_not_idempotent_counterexample :
  let x := repeat 97 49 ++ [32; 98] in
  sanitize x true = repeat 97 49 ++ [underscore] /\
  sanitize (sanitize x true) true = repeat 97 49 /\
  sanitize (sanitize x true) true <> sanitize x true.
Proof.
  simpl. split; [reflexivity|]. split; [reflexivity|].
  vm_compute. discriminate.
Qed.

Lemma no_adjacent_doubled_end a v : no_adjacent a (v ++ [a; a]) -> False.
Proof.
  induction v as [|e v IH]; simpl.
  - intros [H _]. exact (H eq_refl eq_refl).
  - intros [_ H]. exact (IH H).
Qed.

Lemma drop_trailing_underscore_no_end s v :
  no_adjacent underscore s -> drop_trailing_underscore s <> v ++ [underscore].
Proof.
  intros Ha. unfold drop_trailing_underscore.
  destruct (rev s) as [|c r] eqn:E.
  - destruct v; discriminate.
  - assert (Es : s = rev r ++ [c]) by (rewrite <- (rev_involutive s), E; reflexivity).
    destruct (Z.eqb_spec c underscore) as [->|Hne].
    + intros Hr. rewrite Hr, <- app_assoc in Es. simpl in Es. subst s.
      exact (no_adjacent_doubled_end _ _ Ha).
    + intros Hv. subst s. apply app_inj_tail in Hv as [_ Hc]. contradiction.
Qed.

(** C6 (amended): standard mode is idempotent; in compatibility mode a
    second application only removes a trailing underscore, and there is
    one only when the 50-unit truncation cut right after an underscore:
    the untruncated cleaned title is longer than 50 units and its 50th
    unit is [_].  So compatibility mode is idempotent on every title whose
    sanitized form does not end in [_]. *)
Theorem sanitize_reapply (x : list Z) :
  sanitize (sanitize x false) false = sanitize x false /\
  sanitize (sanitize x true) true = drop_trailing_underscore (sanitize x true) /\
  ((forall u, sanitize x true <> u ++ [underscore]) ->
   sanitize (sanitize x true) true = sanitize x true) /\
  (forall u, sanitize x true = u ++ [underscore] ->
   let s4 := strip_edge_underscores
               (replace_runs (fun c => c =? underscore) underscore false
                  (replace_runs is_space underscore false (strip_chars compat_keep x))) in
   (50 < List.length s4)%nat /\ nth 49 s4 0 = underscore /\
   sanitize x true = firstn 50 s4).
Proof.
  assert (Ec : sanitize (sanitize x true) true = drop_trailing_underscore (sanitize x true))
    by (apply sanitize_compat_on_shape, sanitize_compat_shape).
  split.
  - simpl. destruct (sanitize_standard_units x) as [Hu Hne].
    now apply sanitize_standard_id.
  - split; [exact Ec|]. split.
    + intros Hn. rewrite Ec.
      destruct (drop_trailing_underscore_prefix (sanitize x true)) as [E|E].
      * symmetry. exact E.
      * exfalso. exact (Hn _ E).
    + intros u Hu s4. cbn [sanitize] in Hu |- *. unfold sanitize_compat in Hu |- *.
      fold s4 in Hu |- *.
      assert (Hs4 : forall v, s4 <> v ++ [underscore]).
      { intros v. unfold s4.
        set (s3 := replace_runs (fun c => c =? underscore) underscore false _).
        assert (Ha : no_adjacent underscore s3)
          by (apply replace_runs_no_adjacent; reflexivity).
        unfold strip_edge_underscores. destruct s3 as [|c t].
        - destruct v; discriminate.
        - destruct (c =? underscore).
          + apply drop_trailing_underscore_no_end. exact (proj2 Ha).
          + apply drop_trailing_underscore_no_end. exact Ha. }
      destruct (firstn 50 s4) as [|d t] eqn:Ef.
      * exfalso. simpl in Hu. apply (f_equal (@rev Z)) in Hu.
        rewrite rev_app_distr in Hu. discriminate Hu.
      * cbn [or_default] in Hu |- *. rewrite <- Ef in Hu |- *. clear d t Ef.
        assert (Hl : (50 < List.length s4)%nat).
        { destruct (Nat.lt_ge_cases 50 (List.length s4)) as [H|H]; [exact H|].
          rewrite firstn_all2 in Hu by exact H. exfalso. exact (Hs4 _ Hu). }
        split; [exact Hl|]. split; [|reflexivity].
        assert (Hlen : List.length (firstn 50 s4) = 50%nat)
          by (rewrite length_firstn; lia).
        rewrite Hu, length_app in Hlen. simpl in Hlen.
        replace (nth 49 s4 0) with (nth 49 (firstn 50 s4) 0)
          by (rewrite nth_firstn; reflexivity).
        rewrite Hu.
        rewrite app_nth2 by lia. replace (49 - List.length u)%nat with 0%nat by lia.
        reflexivity.
Qed.

Lemma sanitize_reapply_witness :
  let x := repeat 97 49 ++ [32; 98] in
  ((forall u, sanitize (js "a b") true <> u ++ [underscore]) ->
   sanitize (sanitize (js "a b") true) true = sanitize (js "a b") true) /\
  sanitize x true = repeat 97 49 ++ [underscore] /\
  let s4 := strip_edge_underscores
              (replace_runs (fun c => c =? underscore) underscore false
                 (replace_runs is_space underscore false (strip_chars compat_keep x))) in
  (50 < List.length s4)%nat /\ nth 49 s4 0 = underscore /\
  sanitize x true = firstn 50 s4.
Proof.
  intros x.
  assert (H : sanitize x true = repeat 97 49 ++ [underscore]) by reflexivity.
  split; [exact (proj1 (proj2 (proj2 (sanitize_reapply (js "a b")))))|].
  split; [exact H|].
  exact (proj2 (proj2 (proj2 (sanitize_reapply x))) _ H).
Defined.

(** C7: compatibility mode always yields 1 to 50 code units, each in
    [A-Za-z0-9_]; a title with no letter or digit yields the default
    ["youtube_audio"]. *)
Theorem sanitize_compat_charset (x : list Z) :
  (1 <= List.length (sanitize x true) <= 50)%nat /\
  (forall c, In c (sanitize x true) -> is_word c = true) /\
  ((forall c, In c x -> c = underscore \/ is_word c = false) ->
   sanitize x true = default_title).
Proof.
  simpl. destruct (sanitize_compat_shape x) as ((Hw & _ & _) & Hl & Hne).
  split; [|split; [exact Hw|]].
  - destruct (sanitize_compat x); [contradiction|simpl in *; lia].
  - intros Hx. unfold sanitize_compat.
    set (s1 := strip_chars compat_keep x).
    set (s2 := replace_runs is_space underscore false s1).
    set (s3 := replace_runs (fun c => c =? underscore) underscore false s2).
    assert (H2 : forall c, In c s2 -> c = underscore).
    { intros c Hc. apply in_replace_runs in Hc as [->|[Hc Hs]]; [reflexivity|].
      unfold s1, strip_chars in Hc. apply filter_In in Hc as [Hc Hk].
      unfold compat_keep in Hk. rewrite Hs, orb_false_r in Hk.
      destruct (Hx c Hc) as [->|Hn]; [reflexivity|congruence]. }
    assert (H3 : forall c, In c s3 -> c = underscore).
    { intros c Hc. apply in_replace_runs in Hc as [->|[Hc _]]; auto. }
    assert (H3a : no_adjacent underscore s3)
      by (apply replace_runs_no_adjacent; reflexivity).
    destruct (all_r_no_adjacent _ _ H3 H3a) as [E|E]; rewrite E; reflexivity.
Qed.

(** ** Fallback when no audio-only format qualifies *)

(** C4 (code defect): [select] signals [undefined] without throwing when the
    filtered set is empty, but the route then still takes the
    explicit-format path: with a resolver offering only a muxed format it
    asks for [ytdl(url, { format: undefined })], never for the
    ['highestaudio'] / ['audioonly'] request of its [catch] branch. *)
Theorem empty_filtered_set_skips_best_audio :
  (forall b cs, audioFormats cs = [] -> select b cs = None) /\
  fst (run (fun _ => true)
           (fun _ => Some (mkInfo [mkFormat true true (Some 128) 18] (js "Song")))
           (fun _ _ => inr [])
           (download_POST (JObj [(js "url", JStr (js "https://youtu.be/x"));
                                 (js "bitrate", JStr (js "128"))])))
  = [CValidate (JStr (js "https://youtu.be/x"));
     CGetInfo (JStr (js "https://youtu.be/x"));
     CGetInfo (JStr (js "https://youtu.be/x"));
     CStream (JStr (js "https://youtu.be/x")) (ByFormat None)].
Proof.
  split.
  - intros b cs H. now apply select_none_iff.
  - vm_compute. reflexivity.
Qed.

(** ** Request validation *)

(** For every body that destructures (anything but [null]), each rejected
    field yields its own 400 response before any resolver call. *)
Lemma validation_rejects_before_resolver (body : JSValue)
    (Hn : body <> JNull) (Hu : body <> JUndefined) :
  (truthy (match get_prop body (js "url") with Some u => u | None => JUndefined end) = false ->
   download_POST body = Done (error_json 400 "URL is required") /\
   test_POST body = Done (JsonResponse 400 [(js "status", JStr (js "error"));
                                            (js "message", JStr (js "URL is required"))])) /\
  (forall fs, body = JObj fs -> truthy (lookup_field (js "url") fs) = true ->
   includes [js "128"; js "192"]
     (with_default (lookup_field (js "bitrate") fs) (JStr (js "128"))) = false ->
   download_POST body =
     Done (error_json 400 "Invalid bitrate. Only 128 and 192 kbps are supported.")) /\
  (forall fs, body = JObj fs -> truthy (lookup_field (js "url") fs) = true ->
   includes [js "128"; js "192"]
     (with_default (lookup_field (js "bitrate") fs) (JStr (js "128"))) = true ->
   includes [js "16000"; js "22050"; js "44100"]
     (with_default (lookup_field (js "sampleRate") fs) (JStr (js "22050"))) = false ->
   download_POST body =
     Done (error_json 400 "Invalid sample rate. Only 16000, 22050, and 44100 Hz are supported.")).
Proof.
  split; [|split].
  - destruct body; try congruence; simpl; intros Hf;
      unfold download_POST, test_POST; simpl; rewrite ?Hf; split; reflexivity.
  - intros fs -> Hurl Hbr. unfold download_POST. simpl. now rewrite Hurl, Hbr.
  - intros fs -> Hurl Hbr Hsr. unfold download_POST. simpl. now rewrite Hurl, Hbr, Hsr.
Qed.

(** C8 (code defect): a body that parses as JSON [null] has no [url] either,
    but destructuring it throws before the [!url] check, and both routes
    answer 500 instead of 400 ["URL is required"]. *)
Theorem null_body_gets_500 :
  download_POST JNull = Done (server_error destructure_error) /\
  status_of (server_error destructure_error) = 500 /\
  (exists r, test_POST JNull = Done r /\ status_of r = 500).
Proof.
  split; [reflexivity|]. split; [reflexivity|]. eexists. split; reflexivity.
Qed.

(** ** Client post-processing stage *)

(** C9: [convertToMp3] reports 20, 50, 80, 100 (with the fixed delays in
    between) and resolves with the input bytes relabelled [audio/mpeg]; it
    does not throw. *)
Theorem convertToMp3_passthrough (audioBuffer : list Byte.byte)
    (bitrate sampleRate : list Z) (oldPhoneMode : bool) :
  let '(o, tr) := convertToMp3 audioBuffer bitrate sampleRate oldPhoneMode
                    (Some record_progress) [] in
  o = Normal tt /\
  tr = [Progress 20; Sleep 300; Progress 50; Sleep 300; Progress 80; Sleep 200;
        Progress 100; ConsoleLog; Resolve (mkBlob audioBuffer audio_mpeg)] /\
  settled tr = Some (mkBlob audioBuffer audio_mpeg) /\
  progress_reports tr = [20; 50; 80; 100].
Proof. repeat split. Qed.

(* ================================================================== *)
(** * Further properties of the code *)

(** ** URL check and metadata lookup *)

Lemma strip_prefix_some p s r : strip_prefix p s = Some r -> s = p ++ r.
Proof.
  revert s. induction p as [|c p IH]; intros s; simpl.
  - congruence.
  - destruct s as [|d s]; [discriminate|].
    destruct (Z.eqb_spec c d) as [->|_]; [|discriminate].
    intros H. rewrite (IH s H). reflexivity.
Qed.

Lemma strip_prefix_app p s r t :
  strip_prefix p s = Some r -> strip_prefix p (s ++ t) = Some (r ++ t).
Proof.
  intros H. apply strip_prefix_some in H as ->. clear.
  induction p as [|c p IH]; simpl; [reflexivity|].
  now rewrite Z.eqb_refl.
Qed.

Lemma prefix_then_app p (k : list Z -> bool) s t :
  (forall r, k r = true -> k (r ++ t) = true) ->
  prefix_then p k s = true -> prefix_then p k (s ++ t) = true.
Proof.
  unfold prefix_then. intros Hk H.
  destruct (strip_prefix p s) as [r|] eqn:E; [|discriminate].
  rewrite (strip_prefix_app _ _ _ _ E). auto.
Qed.

Lemma dot_plus_app r t : dot_plus r = true -> dot_plus (r ++ t) = true.
Proof. destruct r; simpl; [discriminate|auto]. Qed.

Lemma host_part_app s t : host_part s = true -> host_part (s ++ t) = true.
Proof.
  unfold host_part. intros H. apply orb_true_iff in H as [H|H]; apply orb_true_iff;
    [left|right]; apply prefix_then_app; auto using dot_plus_app.
Qed.

Lemma www_part_app s t : www_part s = true -> www_part (s ++ t) = true.
Proof.
  unfold www_part. intros H. apply orb_true_iff in H as [H|H]; apply orb_true_iff;
    [left; apply prefix_then_app; auto using host_part_app | right; auto using host_part_app].
Qed.

Lemma validate_app (url rest : list Z) :
  validateYouTubeUrl url = true -> validateYouTubeUrl (url ++ rest) = true.
Proof.
  intros H.
  unfold validateYouTubeUrl in *.
  repeat rewrite orb_true_iff in *.
  destruct H as [[H|H]|H]; [left; left|left; right|right];
    solve [apply prefix_then_app; auto using www_part_app | auto using www_part_app].
Qed.

(** X1: [validateYouTubeUrl] has no end anchor: text appended to an
    accepted URL is accepted as well. *)
Theorem validateYouTubeUrl_extend (url rest : list Z)
    (H : validateYouTubeUrl url = true) :
  validateYouTubeUrl (url ++ rest) = true.
Proof. exact (validate_app url rest H). Qed.

Lemma validateYouTubeUrl_extend_witness :
  validateYouTubeUrl (js "https://youtu.be/x") = true /\
  validateYouTubeUrl (js "https://youtu.be/x" ++ js " and more") = true.
Proof.
  assert (H : validateYouTubeUrl (js "https://youtu.be/x") = true) by reflexivity.
  split; [exact H|exact (validateYouTubeUrl_extend _ _ H)].
Defined.

Lemma prefix_then_in p k s c : prefix_then p k s = true -> In c p -> In c s.
Proof.
  unfold prefix_then. destruct (strip_prefix p s) eqn:E; [|discriminate].
  apply strip_prefix_some in E as ->. intros _ Hc. apply in_or_app. auto.
Qed.

Lemma host_part_has_y s : host_part s = true -> In 121 s.
Proof.
  unfold host_part. intros H. apply orb_true_iff in H as [H|H];
    eapply prefix_then_in; try exact H; simpl; auto.
Qed.

Lemma www_part_has_y s : www_part s = true -> In 121 s.
Proof.
  unfold www_part. intros H. apply orb_true_iff in H as [H|H]; [|auto using host_part_has_y].
  unfold prefix_then in H. destruct (strip_prefix (js "www.") s) eqn:E; [|discriminate].
  apply strip_prefix_some in E as ->. apply in_or_app. right. auto using host_part_has_y.
Qed.

Lemma validate_has_y url : validateYouTubeUrl url = true -> In 121 url.
Proof.
  unfold validateYouTubeUrl. intros H. repeat rewrite orb_true_iff in H.
  destruct H as [[H|H]|H]; [| |auto using www_part_has_y];
    unfold prefix_then in H;
    match type of H with
    | context [strip_prefix ?p url] =>
        destruct (strip_prefix p url) eqn:E; [|discriminate];
        apply strip_prefix_some in E as ->; apply in_or_app; right; auto using www_part_has_y
    end.
Qed.

Lemma trim_start_nil s : trim_start s = [] -> forall c, In c s -> is_space c = true.
Proof.
  induction s as [|d ds IH]; simpl; [tauto|].
  destruct (is_space d) eqn:E; [|discriminate].
  intros H c [<-|Hc]; auto.
Qed.

Lemma trim_start_head s d ds : trim_start s = d :: ds -> is_space d = false.
Proof.
  induction s as [|x xs IH]; simpl; [discriminate|].
  destruct (is_space x) eqn:Ex; [exact IH|]. intros [= -> ->]. exact Ex.
Qed.

Lemma trim_nil s : trim s = [] -> forall c, In c s -> is_space c = true.
Proof.
  unfold trim. intros H.
  destruct (trim_start s) as [|d ds] eqn:E; [exact (trim_start_nil s E)|].
  exfalso.
  assert (Hr : trim_start (rev (d :: ds)) = []).
  { destruct (trim_start (rev (d :: ds))) as [|y ys] eqn:E2; [reflexivity|].
    apply (f_equal (@List.length Z)) in H. rewrite length_rev in H. discriminate. }
  assert (Hd : is_space d = true).
  { apply (trim_start_nil _ Hr). apply in_rev. rewrite rev_involutive. simpl. auto. }
  rewrite (trim_start_head _ _ _ E) in Hd. discriminate.
Qed.

Lemma validate_not_blank url :
  validateYouTubeUrl url = true -> match trim url with [] => false | _ => true end = true.
Proof.
  intros H. destruct (trim url) eqn:E; [|reflexivity].
  exfalso. apply validate_has_y in H. apply (trim_nil _ E) in H. discriminate.
Qed.

(** X2: once the input is an accepted URL, every change that appends to
    it schedules another metadata fetch in 1000 ms. *)
Theorem handleUrlChange_after_valid (url rest : list Z)
    (H : validateYouTubeUrl url = true) :
  handleUrlChange (url ++ rest) = ScheduleFetch 1000 (url ++ rest).
Proof.
  pose proof (validate_app url rest H) as H'.
  unfold handleUrlChange. rewrite (validate_not_blank _ H'). simpl. now rewrite H'.
Qed.

Lemma handleUrlChange_after_valid_witness :
  validateYouTubeUrl (js "youtu.be/a") = true /\
  handleUrlChange (js "youtu.be/a" ++ js "b") = ScheduleFetch 1000 (js "youtu.be/a" ++ js "b").
Proof.
  assert (H : validateYouTubeUrl (js "youtu.be/a") = true) by reflexivity.
  split; [exact H|exact (handleUrlChange_after_valid _ _ H)].
Defined.

(** ** Filenames and headers *)

Lemma encodeURIComponent_unreserved s :
  (forall c, In c s -> uri_unreserved c = true) -> encodeURIComponent s = Some s.
Proof.
  induction s as [|c cs IH]; simpl; intros H; [reflexivity|].
  rewrite (H c (or_introl eq_refl)), IH by auto. reflexivity.
Qed.

Lemma encode_sanitized (title : list Z) :
  encodeURIComponent (sanitize_standard title) = Some (sanitize_standard title).
Proof.
  apply encodeURIComponent_unreserved. intros c Hc.
  apply (proj1 (sanitize_standard_units title)) in Hc.
  apply orb_true_iff in Hc as [Hw|Hh].
  - unfold is_word in Hw. unfold uri_unreserved.
    repeat rewrite orb_true_iff in Hw. destruct Hw as [[[H|H]|H]|H].
    + rewrite H. reflexivity.
    + rewrite H, ?orb_true_r, ?orb_true_l. reflexivity.
    + rewrite H, ?orb_true_r, ?orb_true_l. reflexivity.
    + apply Z.eqb_eq in H. subst. reflexivity.
  - apply Z.eqb_eq in Hh. subst. reflexivity.
Qed.

(** X7: [encodeURIComponent] leaves every standard-mode title unchanged
    (and never throws on one), so the [Content-Disposition] filename is the
    title itself. *)
Theorem encodeURIComponent_sanitized (title : list Z) :
  encodeURIComponent (sanitize_standard title) = Some (sanitize_standard title).
Proof. exact (encode_sanitized title). Qed.

Lemma filter_nil_iff {A} (p : A -> bool) l : filter p l = [] <-> forall x, In x l -> p x = false.
Proof.
  induction l as [|x xs IH]; simpl; [tauto|].
  destruct (p x) eqn:E; split.
  - discriminate.
  - intros H. specialize (H x (or_introl eq_refl)). congruence.
  - intros Hn y [<-|Hy]; [exact E|]. apply IH; auto.
  - intros H. apply IH. auto.
Qed.

(** X6: the second component's filename has no fallback: it is exactly
    [".mp3"] when the title has no ASCII letter, digit, underscore,
    whitespace or hyphen, and has a non-empty stem otherwise. *)
Theorem filename_v2_empty_stem (videoTitle : list Z) :
  filename_v2 videoTitle = js ".mp3" <-> (forall c, In c videoTitle -> standard_keep c = false).
Proof.
  unfold filename_v2, cleanTitle_v2, strip_chars. rewrite <- filter_nil_iff.
  destruct (filter standard_keep videoTitle) as [|c cs]; [simpl; tauto|].
  split; [|discriminate].
  intros H. apply (f_equal (@List.length Z)) in H. rewrite length_app in H.
  revert H. simpl. destruct (is_space c); simpl; lia.
Qed.


(** ** Client download flow *)

Lemma validate_nonempty url : validateYouTubeUrl url = true -> url <> [].
Proof. intros H ->. discriminate H. Qed.

Lemma states_of_app l k : states_of (l ++ k) = states_of l ++ states_of k.
Proof. induction l as [|[]]; simpl; congruence. Qed.

Lemma states_of_map_set l : states_of (map SetState l) = l.
Proof. induction l; simpl; congruence. Qed.

(** X3: [handleDownload] sends a request to the server exactly when the
    URL passes the client-side check; otherwise it only reports an error
    state, keeping [isDownloading] and [progress] from the previous state. *)
Theorem handleDownload_fetches_iff_valid (prev : DownloadState) (url : list Z)
    (b : BitrateOption) (r : SampleRateOption) (m : bool) (reply : ServerReply) :
  ((exists body, In (FetchDownload body) (handleDownload prev url b r m reply)) <->
   validateYouTubeUrl url = true) /\
  (validateYouTubeUrl url = false ->
   exists msg, handleDownload prev url b r m reply =
     [SetState (mkDState (isDownloading prev) (progress prev) Failed (Some msg))]).
Proof.
  unfold handleDownload. destruct (validateYouTubeUrl url) eqn:Hv.
  - rewrite (validate_not_blank _ Hv). simpl. split; [|discriminate].
    split; [|intros _; eexists; right; left; reflexivity]. reflexivity.
  - split.
    + destruct (match trim url with [] => false | _ => true end); simpl;
        split; [intros [body [H|[]]]; discriminate H| discriminate
               |intros [body [H|[]]]; discriminate H| discriminate].
    + intros _. destruct (match trim url with [] => false | _ => true end); simpl;
        eexists; reflexivity.
Qed.

(** X4: on an ok reply the displayed states are 10 % (downloading), 50 %
    (converting), then 58, 70, 82 and 90 % from the conversion's reports,
    then 100 % (completed); no state carries an error, and [isDownloading]
    is never reset to [false] on this path. *)
Theorem handleDownload_ok_states (prev : DownloadState) (url : list Z)
    (b : BitrateOption) (r : SampleRateOption) (m : bool)
    (bytes : list Byte.byte) (headers : list (list Z * list Z))
    (Hv : validateYouTubeUrl url = true) :
  let sts := states_of (handleDownload prev url b r m (ReplyOk bytes headers)) in
  map (fun s => (Qred (progress s), status s)) sts =
    [(10%Q, Downloading); (50%Q, Converting); (58%Q, Converting); (70%Q, Converting);
     (82%Q, Converting); (90%Q, Converting); (100%Q, Completed)] /\
  (forall s, In s sts -> isDownloading s = true /\ error s = None).
Proof.
  unfold handleDownload. rewrite (validate_not_blank _ Hv), Hv. simpl.
  split; [reflexivity|].
  intros s Hs. repeat (destruct Hs as [<-|Hs]; [split; reflexivity|]). destruct Hs.
Qed.

Lemma handleDownload_ok_states_witness :
  validateYouTubeUrl (js "youtu.be/a") = true /\
  let sts := states_of (handleDownload (mkDState false 0 Idle None) (js "youtu.be/a")
                          Br128 Sr22050 true (ReplyOk [] [])) in
  map (fun s => (Qred (progress s), status s)) sts =
    [(10%Q, Downloading); (50%Q, Converting); (58%Q, Converting); (70%Q, Converting);
     (82%Q, Converting); (90%Q, Converting); (100%Q, Completed)] /\
  (forall s, In s sts -> isDownloading s = true /\ error s = None).
Proof.
  assert (H : validateYouTubeUrl (js "youtu.be/a") = true) by reflexivity.
  split; [exact H|exact (handleDownload_ok_states _ _ _ _ _ _ _ H)].
Defined.

(** X5: on an ok reply the last thing [handleDownload] does is save the
    server's bytes, relabelled [audio/mpeg], under [stem ++ ".mp3"], where
    the stem is the cleaned [X-Video-Title] header (or ["youtube_audio"]):
    1 to 50 ASCII letters, digits and underscores, with no leading or
    doubled underscore. *)
Theorem handleDownload_ok_saves_file (prev : DownloadState) (url : list Z)
    (b : BitrateOption) (r : SampleRateOption) (m : bool)
    (bytes : list Byte.byte) (headers : list (list Z * list Z))
    (Hv : validateYouTubeUrl url = true) :
  exists pre stem,
    handleDownload prev url b r m (ReplyOk bytes headers) =
      pre ++ [SaveFile (stem ++ js ".mp3") (mkBlob bytes audio_mpeg)] /\
    stem = sanitize_compat (header_or (header_get (js "X-Video-Title") headers) default_title) /\
    (forall c, In c stem -> is_word c = true) /\
    (1 <= List.length stem <= 50)%nat /\
    hd_error stem <> Some underscore /\ no_adjacent underscore stem.
Proof.
  unfold handleDownload. rewrite (validate_not_blank _ Hv), Hv. simpl.
  pose proof (sanitize_compat_shape
                (header_or (header_get (js "X-Video-Title") headers) default_title)) as Hs.
  unfold compat_shape, cleaned in Hs. destruct Hs as [[Hw [Hh Hn]] [Hl Hne]].
  set (stem := sanitize_compat _) in *.
  match goal with |- exists pre st, ?l = _ /\ _ => exists (removelast l), stem end.
  split; [reflexivity|].
  split; [reflexivity|].
  repeat split; auto.
  destruct stem; [congruence|simpl; lia].
Qed.

Lemma handleDownload_ok_saves_file_witness :
  validateYouTubeUrl (js "youtu.be/a") = true /\
  exists pre stem,
    handleDownload (mkDState false 0 Idle None) (js "youtu.be/a") Br192 Sr44100 false
      (ReplyOk [] [(js "x-video-title", js " a  b"); (js "X-VIDEO-TITLE", js "c")]) =
      pre ++ [SaveFile (stem ++ js ".mp3") (mkBlob [] audio_mpeg)] /\
    stem = sanitize_compat (header_or (header_get (js "X-Video-Title")
                                         [(js "x-video-title", js " a  b");
                                          (js "X-VIDEO-TITLE", js "c")]) default_title) /\
    (forall c, In c stem -> is_word c = true) /\
    (1 <= List.length stem <= 50)%nat /\
    hd_error stem <> Some underscore /\ no_adjacent underscore stem.
Proof.
  assert (H : validateYouTubeUrl (js "youtu.be/a") = true) by reflexivity.
  split; [exact H|exact (handleDownload_ok_saves_file _ _ _ _ _ _ _ H)].
Defined.

(** X8: when the server answers a non-ok status whose JSON body has a
    non-empty string [error] field, the flow ends in the error state with
    that message, [isDownloading] false and progress 0, and no file is
    saved. *)
Theorem handleDownload_not_ok_message (prev : DownloadState) (url : list Z)
    (b : BitrateOption) (r : SampleRateOption) (m : bool)
    (fs : list (list Z * JSValue)) (e : list Z)
    (Hv : validateYouTubeUrl url = true)
    (He : lookup_field (js "error") fs = JStr e) (Hne : e <> []) :
  let evs := handleDownload prev url b r m (ReplyNotOk (JObj fs)) in
  last evs (FetchDownload JNull) = SetState (mkDState false 0 Failed (Some e)) /\
  (forall f bl, ~ In (SaveFile f bl) evs).
Proof.
  unfold handleDownload. rewrite (validate_not_blank _ Hv), Hv. simpl.
  unfold not_ok_message. simpl. rewrite He. destruct e as [|c cs]; [congruence|].
  split; [reflexivity|]. intros f bl [H|[H|[H|[]]]]; discriminate H.
Qed.

Lemma handleDownload_not_ok_message_witness :
  let fs := [(js "error", JStr (js "Invalid YouTube URL"))] in
  validateYouTubeUrl (js "youtu.be/a") = true /\
  lookup_field (js "error") fs = JStr (js "Invalid YouTube URL") /\
  js "Invalid YouTube URL" <> [] /\
  let evs := handleDownload (mkDState false 0 Idle None) (js "youtu.be/a") Br128 Sr16000 true
               (ReplyNotOk (JObj fs)) in
  last evs (FetchDownload JNull) =
    SetState (mkDState false 0 Failed (Some (js "Invalid YouTube URL"))) /\
  (forall f bl, ~ In (SaveFile f bl) evs).
Proof.
  intros fs.
  assert (H1 : validateYouTubeUrl (js "youtu.be/a") = true) by reflexivity.
  assert (H2 : lookup_field (js "error") fs = JStr (js "Invalid YouTube URL")) by reflexivity.
  assert (H3 : js "Invalid YouTube URL" <> []) by discriminate.
  split; [exact H1|]. split; [exact H2|]. split; [exact H3|].
  exact (handleDownload_not_ok_message _ _ _ _ _ fs _ H1 H2 H3).
Defined.

(** ** The download route on the client's requests *)

Lemma get_prop_download_body url b r m :
  get_prop (download_body url b r m) (js "url") = Some (JStr url) /\
  get_prop (download_body url b r m) (js "bitrate") = Some (JStr (bitrate_string b)) /\
  get_prop (download_body url b r m) (js "sampleRate") = Some (JStr (sample_rate_string r)) /\
  get_prop (download_body url b r m) (js "oldPhoneMode") = Some (JBool m).
Proof. repeat split. Qed.

Lemma includes_bitrate b : includes [js "128"; js "192"] (JStr (bitrate_string b)) = true.
Proof. destruct b; reflexivity. Qed.

Lemma includes_sample_rate r :
  includes [js "16000"; js "22050"; js "44100"] (JStr (sample_rate_string r)) = true.
Proof. destruct r; reflexivity. Qed.

Lemma parseInt_bitrate b :
  parseInt (JStr (bitrate_string b)) = Some (match b with Br128 => 128 | Br192 => 192 end).
Proof. destruct b; reflexivity. Qed.

Lemma header_string_bitrate b : header_string (JStr (bitrate_string b)) = inr (bitrate_string b).
Proof. destruct b; reflexivity. Qed.

Lemma header_string_sample_rate r :
  header_string (JStr (sample_rate_string r)) = inr (sample_rate_string r).
Proof. destruct r; reflexivity. Qed.

Lemma header_string_bool (m : bool) :
  header_string (JBool m) = inr (if m then js "true" else js "false").
Proof. destruct m; reflexivity. Qed.

(** X9: the body [handleDownload] sends for a URL it accepted (and the
    resolver accepts too) passes every check of [POST /api/download]: the
    route validates, looks the metadata up twice, independently, and
    streams the format [select] picks for the chosen bitrate from the
    second lookup (highest audio when that lookup fails); the title comes
    from the first lookup (the default when it fails), whatever the second
    answers.  On a stream it answers 200 with the audio bytes and echoes
    the chosen bitrate, sample rate and old-phone flag in its headers. *)
Theorem download_POST_client_body (url : list Z) (b : BitrateOption) (r : SampleRateOption)
    (m : bool) (validate : JSValue -> bool) (getInfo : nat -> JSValue -> option Info)
    (stream : JSValue -> StreamReq -> list Z + list Byte.byte)
    (Hc : validateYouTubeUrl url = true) (Hs : validate (JStr url) = true) :
  let title := match getInfo 0%nat (JStr url) with
               | Some i => sanitize_standard (videoTitle i)
               | None => default_title
               end in
  let req := match getInfo 1%nat (JStr url) with
             | Some i => ByFormat (select (match b with Br128 => 128 | Br192 => 192 end)
                                          (formats i))
             | None => HighestAudioOnly
             end in
  let '(calls, resp) := run_lookups validate getInfo stream 0
                          (download_POST (download_body url b r m)) in
  calls = [CValidate (JStr url); CGetInfo (JStr url); CGetInfo (JStr url);
           CStream (JStr url) req] /\
  resp = match stream (JStr url) req with
         | inl msg => server_error msg
         | inr bytes =>
             AudioResponse 200 bytes
               [(js "Content-Type", js "audio/mp4"); (js "X-Video-Title", title);
                (js "X-Bitrate", bitrate_string b);
                (js "X-Sample-Rate", sample_rate_string r);
                (js "X-Old-Phone-Mode", if m then js "true" else js "false")]
         end.
Proof.
  destruct url as [|c cs]; [discriminate Hc|]. clear Hc.
  unfold download_POST.
  destruct (get_prop_download_body (c :: cs) b r m) as (E1 & E2 & E3 & E4).
  rewrite E1, E2, E3, E4. cbn [with_default truthy negb].
  rewrite includes_bitrate, includes_sample_rate. cbn [negb].
  rewrite parseInt_bitrate, header_string_bitrate, header_string_sample_rate,
    header_string_bool.
  cbn -[select sanitize_standard default_title js]. rewrite Hs.
  cbn -[select sanitize_standard default_title js].
  destruct (getInfo 0%nat _); destruct (getInfo 1%nat _);
    cbn -[select sanitize_standard default_title js];
    destruct (stream _ _); split; reflexivity.
Qed.

Lemma download_POST_client_body_witness :
  let getInfo := fun (i : nat) (_ : JSValue) =>
                   match i with O => Some (mkInfo [] (js "My song!")) | _ => None end in
  validateYouTubeUrl (js "youtu.be/a") = true /\
  (fun _ : JSValue => true) (JStr (js "youtu.be/a")) = true /\
  let '(calls, resp) := run_lookups (fun _ => true) getInfo (fun _ _ => inr []) 0
                          (download_POST (download_body (js "youtu.be/a") Br192 Sr44100 false)) in
  calls = [CValidate (JStr (js "youtu.be/a")); CGetInfo (JStr (js "youtu.be/a"));
           CGetInfo (JStr (js "youtu.be/a")); CStream (JStr (js "youtu.be/a")) HighestAudioOnly] /\
  resp = AudioResponse 200 []
           [(js "Content-Type", js "audio/mp4"); (js "X-Video-Title", js "My_song");
            (js "X-Bitrate", js "192"); (js "X-Sample-Rate", js "44100");
            (js "X-Old-Phone-Mode", js "false")].
Proof.
  intros getInfo.
  assert (H1 : validateYouTubeUrl (js "youtu.be/a") = true) by reflexivity.
  assert (H2 : (fun _ : JSValue => true) (JStr (js "youtu.be/a")) = true) by reflexivity.
  split; [exact H1|]. split; [exact H2|].
  exact (download_POST_client_body (js "youtu.be/a") Br192 Sr44100 false
           (fun _ => true) getInfo (fun _ _ => inr []) H1 H2).
Defined.

(** X10 (code defect): a body whose [oldPhoneMode] is JSON [null] passes
    every check (the destructuring default only replaces [undefined]), so
    the route validates, looks up and downloads the whole stream, and then
    [oldPhoneMode.toString()] throws: the answer is a 500 instead of the
    audio. *)
Theorem download_POST_null_oldPhoneMode (url : list Z) (validate : JSValue -> bool)
    (getInfo : JSValue -> option Info)
    (stream : JSValue -> StreamReq -> list Z + list Byte.byte) (bytes : list Byte.byte)
    (Hu : url <> []) (Hs : validate (JStr url) = true)
    (Hst : forall req, stream (JStr url) req = inr bytes) :
  let '(calls, resp) := run validate getInfo stream
                          (download_POST (JObj [(js "url", JStr url);
                                                (js "oldPhoneMode", JNull)])) in
  (exists req, In (CStream (JStr url) req) calls) /\
  resp = server_error (js "Cannot read properties of null").
Proof.
  destruct url as [|c cs]; [congruence|].
  set (body := JObj [(js "url", JStr (c :: cs)); (js "oldPhoneMode", JNull)]).
  assert (E1 : get_prop body (js "url") = Some (JStr (c :: cs))) by reflexivity.
  assert (E2 : get_prop body (js "bitrate") = Some JUndefined) by reflexivity.
  assert (E3 : get_prop body (js "sampleRate") = Some JUndefined) by reflexivity.
  assert (E4 : get_prop body (js "oldPhoneMode") = Some JNull) by reflexivity.
  unfold download_POST. rewrite E1, E2, E3, E4. cbn [with_default truthy negb].
  change (JStr (js "128")) with (JStr (bitrate_string Br128)).
  change (JStr (js "22050")) with (JStr (sample_rate_string Sr22050)).
  rewrite (includes_bitrate Br128), (includes_sample_rate Sr22050). cbn [negb].
  cbn -[select sanitize_standard default_title js]. rewrite Hs.
  cbn -[select sanitize_standard default_title js].
  match goal with |- context [stream (JStr (c :: cs)) ?q] => rewrite (Hst q) end.
  cbn -[select sanitize_standard default_title js].
  split; [eexists; right; right; right; left; reflexivity|reflexivity].
Qed.

Lemma download_POST_null_oldPhoneMode_witness :
  js "youtu.be/a" <> [] /\
  let '(calls, resp) := run (fun _ => true) (fun _ => None) (fun _ _ => inr [])
                          (download_POST (JObj [(js "url", JStr (js "youtu.be/a"));
                                                (js "oldPhoneMode", JNull)])) in
  (exists req, In (CStream (JStr (js "youtu.be/a")) req) calls) /\
  resp = server_error (js "Cannot read properties of null").
Proof.
  assert (H1 : js "youtu.be/a" <> []) by discriminate.
  split; [exact H1|].
  exact (download_POST_null_oldPhoneMode (js "youtu.be/a") (fun _ => true) (fun _ => None)
           (fun _ _ => inr []) [] H1 eq_refl (fun _ => eq_refl)).
Defined.

(** ** The post-processing stage with other progress callbacks *)

Lemma settled_app l k :
  settled (l ++ k) = match settled l with Some b => Some b | None => settled k end.
Proof. induction l as [|[] l IH]; simpl; auto. Qed.

Ltac run_callbacks cb Hcb :=
  repeat match goal with
  | |- context [cb ?p ?tr] =>
      let o := fresh "o" in let ev := fresh "ev" in
      let E := fresh "E" in let Hev := fresh "Hev" in
      destruct (Hcb p tr) as (o & ev & E & Hev); rewrite E; destruct o as [[]|?]
  end.

Ltac settle :=
  rewrite ?settled_app;
  repeat match goal with H : settled ?x = None |- _ => rewrite H end; reflexivity.

(** X11: [convertToMp3] settles with the input bytes as [audio/mpeg] for
    any progress callback that resolves nothing itself and does not throw
    when told 100, even one that throws at 20, 50 or 80: the [catch] branch
    reports 100 again and resolves the same blob. *)
Theorem convertToMp3_settles_despite_callback (cb : Z -> M unit)
    (Hcb : forall p tr, exists o ev, cb p tr = (o, tr ++ ev) /\ settled ev = None)
    (H100 : forall tr, fst (cb 100 tr) = Normal tt)
    (audioBuffer : list Byte.byte) (bitrate sampleRate : list Z) (oldPhoneMode : bool) :
  let '(o, tr) := convertToMp3 audioBuffer bitrate sampleRate oldPhoneMode (Some cb) [] in
  o = Normal tt /\ settled tr = Some (mkBlob audioBuffer audio_mpeg).
Proof.
  unfold convertToMp3, try_catch, bind, call_progress, emit.
  run_callbacks cb Hcb;
    try (match goal with E : cb 100 ?tr = (Thrown _, _) |- _ =>
           specialize (H100 tr); rewrite E in H100; discriminate H100 end);
    (split; [reflexivity|settle]).
Qed.

(** X12: if the callback throws whenever it is told 100, the promise
    [convertToMp3] returns never settles: the [catch] branch calls the
    callback with 100 again before [resolve], and that throw escapes the
    async executor. *)
Theorem convertToMp3_never_settles (cb : Z -> M unit)
    (Hcb : forall p tr, exists o ev, cb p tr = (o, tr ++ ev) /\ settled ev = None)
    (H100 : forall tr, exists e, fst (cb 100 tr) = Thrown e)
    (audioBuffer : list Byte.byte) (bitrate sampleRate : list Z) (oldPhoneMode : bool) :
  let '(o, tr) := convertToMp3 audioBuffer bitrate sampleRate oldPhoneMode (Some cb) [] in
  (exists e, o = Thrown e) /\ settled tr = None.
Proof.
  unfold convertToMp3, try_catch, bind, call_progress, emit.
  run_callbacks cb Hcb;
    try (match goal with E : cb 100 ?tr = (Normal _, _) |- _ =>
           destruct (H100 tr) as [? H]; rewrite E in H; discriminate H end);
    (split; [eexists; reflexivity|settle]).
Qed.

Lemma throw_at_appends n p tr :
  exists o ev, throw_at n p tr = (o, tr ++ ev) /\ settled ev = None.
Proof.
  unfold throw_at, record_progress, emit. destruct (p =? n).
  - exists (Thrown (js "callback failed")), []. rewrite app_nil_r. split; reflexivity.
  - exists (Normal tt), [Progress p]. split; reflexivity.
Qed.

Lemma convertToMp3_settles_despite_callback_witness :
  (forall p tr, exists o ev, throw_at 50 p tr = (o, tr ++ ev) /\ settled ev = None) /\
  (forall tr, fst (throw_at 50 100 tr) = Normal tt) /\
  let '(o, tr) := convertToMp3 [] (js "128") (js "22050") true (Some (throw_at 50)) [] in
  o = Normal tt /\ settled tr = Some (mkBlob [] audio_mpeg).
Proof.
  assert (H1 : forall p tr, exists o ev, throw_at 50 p tr = (o, tr ++ ev) /\ settled ev = None)
    by apply throw_at_appends.
  assert (H2 : forall tr, fst (throw_at 50 100 tr) = Normal tt) by reflexivity.
  split; [exact H1|]. split; [exact H2|].
  exact (convertToMp3_settles_despite_callback (throw_at 50) H1 H2 [] (js "128") (js "22050") true).
Defined.

Lemma convertToMp3_never_settles_witness :
  (forall p tr, exists o ev, throw_at 100 p tr = (o, tr ++ ev) /\ settled ev = None) /\
  (forall tr, exists e, fst (throw_at 100 100 tr) = Thrown e) /\
  let '(o, tr) := convertToMp3 [] (js "128") (js "22050") true (Some (throw_at 100)) [] in
  (exists e, o = Thrown e) /\ settled tr = None.
Proof.
  assert (H1 : forall p tr, exists o ev, throw_at 100 p tr = (o, tr ++ ev) /\ settled ev = None)
    by apply throw_at_appends.
  assert (H2 : forall tr, exists e, fst (throw_at 100 100 tr) = Thrown e)
    by (intros tr; eexists; reflexivity).
  split; [exact H1|]. split; [exact H2|].
  exact (convertToMp3_never_settles (throw_at 100) H1 H2 [] (js "128") (js "22050") true).
Defined.

(** ** The plain download route and the test route *)

(** X13: once the plain route validates the URL and the highest-audio
    stream arrives, it answers 200 with the bytes unchanged, their length
    in [Content-Length], and the title (the cleaned one, or
    ["youtube_audio"] when the lookup fails) both in [X-Video-Title] and,
    unescaped, as the [.m4a] filename: [encodeURIComponent] never changes
    or rejects a cleaned title. *)
Theorem download_basic_POST_ok (body url : JSValue) (validate : JSValue -> bool)
    (getInfo : JSValue -> option Info)
    (stream : JSValue -> StreamReq -> list Z + list Byte.byte) (bytes : list Byte.byte)
    (Hb : get_prop body (js "url") = Some url) (Hu : truthy url = true)
    (Hv : validate url = true) (Hs : stream url HighestAudioOnly = inr bytes) :
  let title := match getInfo url with
               | Some i => sanitize_standard (videoTitle i)
               | None => default_title
               end in
  run validate getInfo stream (download_basic_POST body) =
    ([CValidate url; CGetInfo url; CStream url HighestAudioOnly],
     AudioResponse 200 bytes
       [(js "Content-Type", js "audio/mp4");
        (js "Content-Disposition", js "attachment; filename=" ++ [34] ++ title ++ js ".m4a" ++ [34]);
        (js "Content-Length", decimal (List.length bytes));
        (js "X-Video-Title", title)]).
Proof.
  intros title. unfold download_basic_POST. rewrite Hb, Hu. cbn [negb run].
  rewrite Hv. cbn [negb run]. rewrite Hs.
  assert (Ht : encodeURIComponent title = Some title).
  { unfold title. destruct (getInfo url); [apply encode_sanitized|reflexivity]. }
  fold title. rewrite Ht. reflexivity.
Qed.

Lemma download_basic_POST_ok_witness :
  let body := JObj [(js "url", JStr (js "youtu.be/a"))] in
  get_prop body (js "url") = Some (JStr (js "youtu.be/a")) /\
  truthy (JStr (js "youtu.be/a")) = true /\
  (fun _ : JSValue => true) (JStr (js "youtu.be/a")) = true /\
  (fun _ _ => @inr (list Z) (list Byte.byte) [Byte.x00]) (JStr (js "youtu.be/a")) HighestAudioOnly
    = inr [Byte.x00] /\
  run (fun _ => true) (fun _ => Some (mkInfo [] (js "A b!")))
      (fun _ _ => inr [Byte.x00]) (download_basic_POST body) =
    ([CValidate (JStr (js "youtu.be/a")); CGetInfo (JStr (js "youtu.be/a"));
      CStream (JStr (js "youtu.be/a")) HighestAudioOnly],
     AudioResponse 200 [Byte.x00]
       [(js "Content-Type", js "audio/mp4");
        (js "Content-Disposition",
         js "attachment; filename=" ++ [34] ++ sanitize_standard (js "A b!") ++ js ".m4a" ++ [34]);
        (js "Content-Length", decimal (List.length [Byte.x00]));
        (js "X-Video-Title", sanitize_standard (js "A b!"))]).
Proof.
  intros body.
  assert (H1 : get_prop body (js "url") = Some (JStr (js "youtu.be/a"))) by reflexivity.
  assert (H2 : truthy (JStr (js "youtu.be/a")) = true) by reflexivity.
  assert (H3 : (fun _ : JSValue => true) (JStr (js "youtu.be/a")) = true) by reflexivity.
  assert (H4 : (fun _ _ => @inr (list Z) (list Byte.byte) [Byte.x00]) (JStr (js "youtu.be/a"))
                 HighestAudioOnly = inr [Byte.x00]) by reflexivity.
  split; [exact H1|]. split; [exact H2|]. split; [exact H3|]. split; [exact H4|].
  exact (download_basic_POST_ok body (JStr (js "youtu.be/a")) (fun _ => true)
           (fun _ => Some (mkInfo [] (js "A b!"))) (fun _ _ => inr [Byte.x00]) [Byte.x00]
           H1 H2 H3 H4).
Defined.

(** X14: the test route's [GET] always answers status 200 (even when the
    check or the lookup fails), only ever asks about its fixed URL, and
    never downloads. *)
Theorem test_GET_always_200 (validate : JSValue -> bool) (getInfo : JSValue -> option Info)
    (stream : JSValue -> StreamReq -> list Z + list Byte.byte) :
  let '(calls, resp) := run validate getInfo stream test_GET in
  status_of resp = 200 /\
  calls = CValidate (JStr rick_url) ::
            (if validate (JStr rick_url) then [CGetInfo (JStr rick_url)] else []).
Proof.
  unfold test_GET. cbn [run]. destruct (validate (JStr rick_url)); cbn [negb run].
  - destruct (getInfo (JStr rick_url)); split; reflexivity.
  - split; reflexivity.
Qed.

(** ** The test route's quality list *)

(** Strongly sorted by [key], largest first. *)
Fixpoint descending_by {A} (key : A -> Z) (l : list A) : Prop :=
  match l with
  | [] => True
  | x :: t => (forall y, In y t -> key y <= key x) /\ descending_by key t
  end.

Lemma in_insert_by {A} (key : A -> Z) x l y : In y (insert_by key x l) <-> y = x \/ In y l.
Proof.
  induction l as [|z zs IH]; simpl.
  - intuition congruence.
  - destruct (key x <? key z); simpl; rewrite ?IH; intuition congruence.
Qed.

Lemma in_sort_by {A} (key : A -> Z) l y : In y (sort_by key l) <-> In y l.
Proof.
  induction l as [|x xs IH]; simpl.
  - tauto.
  - rewrite in_insert_by, IH. intuition congruence.
Qed.

Lemma insert_by_descending {A} (key : A -> Z) x l :
  descending_by key l -> descending_by key (insert_by key x l).
Proof.
  induction l as [|y ys IH]; simpl; intros Hd.
  - split; [intros z []|exact I].
  - destruct Hd as [Hy Hys].
    destruct (key x <? key y) eqn:E; simpl.
    + apply Z.ltb_lt in E. split; [|exact (IH Hys)].
      intros z Hz. apply in_insert_by in Hz as [->|Hz]; [lia|auto].
    + apply Z.ltb_ge in E. split; [|split; assumption].
      intros z [<-|Hz]; [lia|]. specialize (Hy z Hz). lia.
Qed.

Lemma sort_by_descending {A} (key : A -> Z) l : descending_by key (sort_by key l).
Proof.
  induction l as [|x xs IH]; simpl; [exact I|].
  now apply insert_by_descending.
Qed.

(** X15: when every label's key [parseInt(quality.replace('p', '') || '0')]
    is a number that a double holds exactly, the test route's quality list
    is sorted by that number, largest first, and holds exactly the
    projections of the formats with both video and audio and a non-empty
    quality label. *)
Theorem available_qualities_sorted (fs : list FullFormat) (l : list QualityOpt)
    (H : available_qualities fs = Some l) :
  descending_by quality_key l /\
  (forall q, In q l -> exists n, resolution_key q = Some n /\ Z.abs n <= 2 ^ 53) /\
  (forall q, In q l <->
     exists f, In f fs /\ hasVideo (base f) = true /\ hasAudio (base f) = true /\
       quality_truthy q = true /\
       q = mkQualityOpt (qualityLabel f) (itag (base f)) (container f)).
Proof.
  unfold available_qualities in H.
  set (qs := filter quality_truthy _) in H.
  destruct (forallb _ qs) eqn:Hall; [|discriminate]. injection H as <-.
  split; [apply sort_by_descending|]. split.
  - intros q Hq. apply in_sort_by in Hq.
    rewrite forallb_forall in Hall. specialize (Hall q Hq). unfold exact_key in Hall.
    destruct (resolution_key q) as [n|]; [|discriminate].
    exists n. split; [reflexivity|]. now apply Z.leb_le.
  - intros q. rewrite in_sort_by. unfold qs. rewrite filter_In, in_map_iff. split.
    + intros [[f [Hf Hin]] Ht]. apply filter_In in Hin as [Hin Hva].
      apply andb_true_iff in Hva as [Hvi Hau].
      exists f. repeat split; auto.
    + intros (f & Hin & Hvi & Hau & Ht & ->). split; [|exact Ht].
      exists f. split; [reflexivity|]. apply filter_In. rewrite Hvi, Hau. auto.
Qed.

Lemma available_qualities_sorted_witness :
  let fs := [mkFullFormat (mkFormat true true None 18) (Some (js "360p")) (js "mp4");
             mkFullFormat (mkFormat true true None 5) (Some (js "0x10p")) (js "flv");
             mkFullFormat (mkFormat true true None 298) (Some (js "720p60")) (js "mp4");
             mkFullFormat (mkFormat true true None 37) (Some (js "1080p")) (js "mp4")] in
  let l := [mkQualityOpt (Some (js "720p60")) 298 (js "mp4");
            mkQualityOpt (Some (js "1080p")) 37 (js "mp4");
            mkQualityOpt (Some (js "360p")) 18 (js "mp4");
            mkQualityOpt (Some (js "0x10p")) 5 (js "flv")] in
  available_qualities fs = Some l /\
  descending_by quality_key l /\
  (forall q, In q l -> exists n, resolution_key q = Some n /\ Z.abs n <= 2 ^ 53) /\
  (forall q, In q l <->
     exists f, In f fs /\ hasVideo (base f) = true /\ hasAudio (base f) = true /\
       quality_truthy q = true /\
       q = mkQualityOpt (qualityLabel f) (itag (base f)) (container f)).
Proof.
  intros fs l.
  assert (H : available_qualities fs = Some l) by reflexivity.
  split; [exact H|]. exact (available_qualities_sorted fs _ H).
Defined.

(** ** What the page shows during a download *)

Fixpoint nondecreasing (l : list Q) : bool :=
  match l with
  | x :: ((y :: _) as t) => Qle_bool x y && nondecreasing t
  | _ => true
  end.

(** X16: after a successful download the state stays [isDownloading]: the
    URL input and the download button remain disabled, and the button keeps
    its spinner with the "processing" text, although the status is
    completed; only [resetDownload] clears the flag. *)
Theorem handleDownload_ok_keeps_button_busy (prev : DownloadState) (url : list Z)
    (b : BitrateOption) (r : SampleRateOption) (m : bool)
    (bytes : list Byte.byte) (headers : list (list Z * list Z))
    (Hv : validateYouTubeUrl url = true) :
  let s := last (states_of (handleDownload prev url b r m (ReplyOk bytes headers))) prev in
  status s = Completed /\ isDownloading s = true /\
  download_button s url = (true, Busy msg_button_processing) /\
  getStatusText (status s) (error s) = msg_status_completed /\
  download_button resetDownload_state url =
    (negb (match trim url with [] => false | _ => true end), ReadyLabel).
Proof.
  unfold handleDownload, download_button. rewrite (validate_not_blank _ Hv), Hv. cbn [negb].
  repeat split; reflexivity.
Qed.

Lemma handleDownload_ok_keeps_button_busy_witness :
  validateYouTubeUrl (js "youtu.be/a") = true /\
  let s := last (states_of (handleDownload resetDownload_state (js "youtu.be/a") Br128 Sr22050
                              true (ReplyOk [] []))) resetDownload_state in
  status s = Completed /\ isDownloading s = true /\
  download_button s (js "youtu.be/a") = (true, Busy msg_button_processing) /\
  getStatusText (status s) (error s) = msg_status_completed /\
  download_button resetDownload_state (js "youtu.be/a") =
    (negb (match trim (js "youtu.be/a") with [] => false | _ => true end), ReadyLabel).
Proof.
  assert (H : validateYouTubeUrl (js "youtu.be/a") = true) by reflexivity.
  split; [exact H|exact (handleDownload_ok_keeps_button_busy _ _ _ _ _ _ _ H)].
Defined.

(** X17: on an ok reply the progress bar never shrinks: its widths over
    the successive states are non-decreasing, from 10 % to 100 %. *)
Theorem handleDownload_ok_bar_grows (prev : DownloadState) (url : list Z)
    (b : BitrateOption) (r : SampleRateOption) (m : bool)
    (bytes : list Byte.byte) (headers : list (list Z * list Z))
    (Hv : validateYouTubeUrl url = true) :
  let ws := map (fun s => bar_width (progress s) (status s))
              (states_of (handleDownload prev url b r m (ReplyOk bytes headers))) in
  nondecreasing ws = true /\ hd_error ws = Some 10%Q /\ last ws 0%Q = 100%Q.
Proof.
  unfold handleDownload. rewrite (validate_not_blank _ Hv), Hv. cbn [negb].
  split; [vm_compute; reflexivity|split; reflexivity].
Qed.

Lemma handleDownload_ok_bar_grows_witness :
  validateYouTubeUrl (js "youtu.be/a") = true /\
  let ws := map (fun s => bar_width (progress s) (status s))
              (states_of (handleDownload resetDownload_state (js "youtu.be/a") Br192 Sr16000
                            false (ReplyOk [] []))) in
  nondecreasing ws = true /\ hd_error ws = Some 10%Q /\ last ws 0%Q = 100%Q.
Proof.
  assert (H : validateYouTubeUrl (js "youtu.be/a") = true) by reflexivity.
  split; [exact H|exact (handleDownload_ok_bar_grows _ _ _ _ _ _ _ H)].
Defined.





(** X19: a click on the enabled download button never hits the "enter a
    link" branch: the button is disabled while the URL is blank. *)
Theorem enabled_button_skips_blank_check (prev : DownloadState) (url : list Z)
    (b : BitrateOption) (r : SampleRateOption) (m : bool) (reply : ServerReply)
    (Hen : fst (download_button prev url) = false) :
  hd_error (handleDownload prev url b r m reply) <>
    Some (SetState (mkDState (isDownloading prev) (progress prev) Failed (Some msg_enter_link))).
Proof.
  unfold download_button in Hen. cbn [fst] in Hen.
  apply orb_false_iff in Hen as [_ Hn].
  unfold handleDownload. rewrite Hn.
  destruct (negb (validateYouTubeUrl url)); cbn [hd_error]; intros H; injection H.
  - discriminate.
  - intros; discriminate.
Qed.

Lemma enabled_button_skips_blank_check_witness :
  fst (download_button resetDownload_state (js "x")) = false /\
  hd_error (handleDownload resetDownload_state (js "x") Br128 Sr22050 true (ReplyOk [] [])) <>
    Some (SetState (mkDState (isDownloading resetDownload_state) (progress resetDownload_state)
                     Failed (Some msg_enter_link))).
Proof.
  assert (H : fst (download_button resetDownload_state (js "x")) = false) by reflexivity.
  split; [exact H|exact (enabled_button_skips_blank_check _ _ _ _ _ _ H)].
Defined.

(** ** The video preview against the test route *)

(** X20: the test route's [POST] never downloads, and it answers 200
    exactly when the body has a truthy [url] that the resolver accepts and
    whose metadata lookup succeeds. *)
Theorem test_POST_status (body : JSValue) (validate : JSValue -> bool)
    (getInfo : JSValue -> option Info)
    (stream : JSValue -> StreamReq -> list Z + list Byte.byte) :
  let '(calls, resp) := run validate getInfo stream (test_POST body) in
  (forall u q, ~ In (CStream u q) calls) /\
  (status_of resp = 200 <->
   exists u i, get_prop body (js "url") = Some u /\ truthy u = true /\
               validate u = true /\ getInfo u = Some i).
Proof.
  unfold test_POST. destruct (get_prop body (js "url")) as [u|].
  - destruct (truthy u) eqn:Ht; cbn [negb run].
    + destruct (validate u) eqn:Hv; cbn [negb run].
      * destruct (getInfo u) as [i|] eqn:Hi; cbn [run].
        -- split; [intros ? ? [H|[H|[]]]; discriminate H|].
           split; [intros _; exists u, i; auto|reflexivity].
        -- split; [intros ? ? [H|[H|[]]]; discriminate H|].
           split; [discriminate|intros (u' & i' & E & _ & _ & Hi')].
           injection E as <-. congruence.
      * split; [intros ? ? [H|[]]; discriminate H|].
        split; [discriminate|intros (u' & i' & E & _ & Hv' & _)].
        injection E as <-. congruence.
    + split; [intros ? ? []|].
      split; [discriminate|intros (u' & i' & E & Ht' & _)]. injection E as <-. congruence.
  - split; [intros ? ? []|]. split; [discriminate|intros (u' & i' & E & _)]. discriminate E.
Qed.

(** X21: for a URL the client accepts, the preview shows the title
    exactly when the test route's resolver accepts the URL and its lookup
    succeeds, shows nothing otherwise, and the loading flag always ends
    cleared. *)
Theorem fetchVideoInfo_test_POST (url : list Z) (validate : JSValue -> bool)
    (getInfo : JSValue -> option Info)
    (stream : JSValue -> StreamReq -> list Z + list Byte.byte)
    (Hv : validateYouTubeUrl url = true) :
  let '(_, resp) := run validate getInfo stream (test_POST (JObj [(js "url", JStr url)])) in
  let evs := fetchVideoInfo url (response_json resp) in
  last evs (SetIsLoadingInfo true) = SetIsLoadingInfo false /\
  match (if validate (JStr url) then getInfo (JStr url) else None) with
  | Some i => In (SetVideoInfo (Some (JStr (videoTitle i)))) evs
  | None => forall v, ~ In (SetVideoInfo (Some v)) evs
  end.
Proof.
  destruct url as [|c cs]; [discriminate Hv|].
  assert (E : get_prop (JObj [(js "url", JStr (c :: cs))]) (js "url") = Some (JStr (c :: cs)))
    by reflexivity.
  unfold test_POST. rewrite E. cbn [truthy negb run].
  unfold fetchVideoInfo. rewrite Hv. cbn [negb].
  destruct (validate (JStr (c :: cs))); cbn [negb run].
  - destruct (getInfo (JStr (c :: cs))) as [i|]; cbn [run response_json].
    + split; [reflexivity|]. simpl. auto.
    + split; [reflexivity|]. intros v H. simpl in H.
      repeat (destruct H as [H|H]; [discriminate H|]). exact H.
  - cbn [response_json]. split; [reflexivity|]. intros v H. simpl in H.
    repeat (destruct H as [H|H]; [discriminate H|]). exact H.
Qed.

Lemma fetchVideoInfo_test_POST_witness :
  validateYouTubeUrl (js "youtu.be/a") = true /\
  let '(_, resp) := run (fun _ => true) (fun _ => Some (mkInfo [] (js "T"))) (fun _ _ => inr [])
                      (test_POST (JObj [(js "url", JStr (js "youtu.be/a"))])) in
  let evs := fetchVideoInfo (js "youtu.be/a") (response_json resp) in
  last evs (SetIsLoadingInfo true) = SetIsLoadingInfo false /\
  match (if (fun _ : JSValue => true) (JStr (js "youtu.be/a"))
         then (fun _ : JSValue => Some (mkInfo [] (js "T"))) (JStr (js "youtu.be/a")) else None) with
  | Some i => In (SetVideoInfo (Some (JStr (videoTitle i)))) evs
  | None => forall v, ~ In (SetVideoInfo (Some v)) evs
  end.
Proof.
  assert (H : validateYouTubeUrl (js "youtu.be/a") = true) by reflexivity.
  split; [exact H|].
  exact (fetchVideoInfo_test_POST (js "youtu.be/a") (fun _ => true)
           (fun _ => Some (mkInfo [] (js "T"))) (fun _ _ => inr []) H).
Defined.

(** ** Leading whitespace *)

Lemma prefix_then_head_mismatch a p (k : list Z -> bool) c s :
  a <> c -> prefix_then (a :: p) k (c :: s) = false.
Proof.
  intros H. unfold prefix_then. simpl. rewrite (proj2 (Z.eqb_neq a c) H). reflexivity.
Qed.

Lemma validate_first_unit c url :
  c <> 104 -> c <> 119 -> c <> 121 -> validateYouTubeUrl (c :: url) = false.
Proof.
  intros H1 H2 H3.
  unfold validateYouTubeUrl, www_part, host_part.
  change (js "https://") with (104 :: js "ttps://").
  change (js "http://") with (104 :: js "ttp://").
  change (js "www.") with (119 :: js "ww.").
  change (js "youtube.com/") with (121 :: js "outube.com/").
  change (js "youtu.be/") with (121 :: js "outu.be/").
  rewrite !prefix_then_head_mismatch by congruence. reflexivity.
Qed.

(** X22: the URL check is anchored at the first unit, so a URL preceded by
    whitespace is rejected although the blank check trims: the preview is
    cleared and a download click reports an invalid link without any
    request. *)
Theorem leading_space_rejected (c : Z) (url : list Z) (prev : DownloadState)
    (b : BitrateOption) (r : SampleRateOption) (m : bool) (reply : ServerReply)
    (Hc : is_space c = true) :
  validateYouTubeUrl (c :: url) = false /\
  handleUrlChange (c :: url) = ClearVideoInfo /\
  (forall body, ~ In (FetchDownload body) (handleDownload prev (c :: url) b r m reply)).
Proof.
  assert (Hv : validateYouTubeUrl (c :: url) = false).
  { apply validate_first_unit; intros ->; discriminate Hc. }
  split; [exact Hv|]. split.
  - unfold handleUrlChange. rewrite Hv.
    destruct (negb (match trim (c :: url) with [] => false | _ => true end)); reflexivity.
  - intros body. unfold handleDownload. rewrite Hv.
    destruct (negb (match trim (c :: url) with [] => false | _ => true end));
      cbn [negb]; intros [H|[]]; discriminate H.
Qed.

Lemma leading_space_rejected_witness :
  is_space 32 = true /\
  validateYouTubeUrl (32 :: js "youtu.be/a") = false /\
  handleUrlChange (32 :: js "youtu.be/a") = ClearVideoInfo /\
  (forall body, ~ In (FetchDownload body)
                  (handleDownload resetDownload_state (32 :: js "youtu.be/a") Br128 Sr22050 true
                     (ReplyOk [] []))).
Proof.
  assert (H : is_space 32 = true) by reflexivity.
  split; [exact H|].
  exact (leading_space_rejected 32 (js "youtu.be/a") resetDownload_state Br128 Sr22050 true
           (ReplyOk [] []) H).
Defined.

(** ** What [encodeURIComponent] emits *)

Lemma hex_digit_unreserved d : 0 <= d <= 35 -> uri_unreserved (hex_digit d) = true.
Proof.
  intros Hd. unfold hex_digit, uri_unreserved.
  destruct (Z.ltb_spec d 10);
    repeat rewrite orb_true_iff; repeat rewrite andb_true_iff; rewrite ?Z.leb_le.
  - left. right. lia.
  - left. left. left. lia.
Qed.

Lemma percent_byte_units b :
  0 <= b < 576 -> forall c, In c (percent_byte b) -> uri_unreserved c = true \/ c = 37.
Proof.
  intros Hb c Hc. unfold percent_byte in Hc.
  destruct Hc as [<-|[<-|[<-|[]]]]; [right; reflexivity|left..];
    apply hex_digit_unreserved.
  - Z.div_mod_to_equations. lia.
  - Z.div_mod_to_equations. lia.
Qed.

Lemma utf8_bytes cp : 0 <= cp <= 1114111 -> forall x, In x (utf8 cp) -> 0 <= x < 256.
Proof.
  intros Hcp x Hx. unfold utf8 in Hx.
  destruct (Z.ltb_spec cp 128); [destruct Hx as [<-|[]]; lia|].
  destruct (Z.ltb_spec cp 2048);
    [destruct Hx as [<-|[<-|[]]]; Z.div_mod_to_equations; lia|].
  destruct (Z.ltb_spec cp 65536);
    [destruct Hx as [<-|[<-|[<-|[]]]]; Z.div_mod_to_equations; lia|].
  destruct Hx as [<-|[<-|[<-|[<-|[]]]]]; Z.div_mod_to_equations; lia.
Qed.

Lemma flat_map_percent_units l :
  (forall x, In x l -> 0 <= x < 256) ->
  forall c, In c (flat_map percent_byte l) -> uri_unreserved c = true \/ c = 37.
Proof.
  intros Hl c Hc. apply in_flat_map in Hc as (x & Hx & Hc).
  apply (percent_byte_units x); [specialize (Hl x Hx); lia|exact Hc].
Qed.

Lemma encode_units_len (n : nat) :
  forall s e, (List.length s <= n)%nat -> (forall c, In c s -> 0 <= c <= 65535) ->
  encodeURIComponent s = Some e ->
  forall c, In c e -> uri_unreserved c = true \/ c = 37.
Proof.
  induction n as [|n IH]; intros s e Hlen Hs He c Hc.
  { destruct s; [|simpl in Hlen; lia]. injection He as <-. destruct Hc. }
  destruct s as [|x rest]; [injection He as <-; destruct Hc|].
  simpl in Hlen. simpl in He.
  destruct (uri_unreserved x) eqn:Hu.
  { destruct (encodeURIComponent rest) as [e'|] eqn:Er; [|discriminate He].
    injection He as <-. destruct Hc as [<-|Hc]; [left; exact Hu|].
    apply (IH rest e'); auto with arith. intros d Hd. apply Hs. right. exact Hd. }
  destruct (is_high_surrogate x) eqn:Hh.
  { destruct rest as [|y rest']; [discriminate He|].
    destruct (is_low_surrogate y) eqn:Hl; [|discriminate He].
    destruct (encodeURIComponent rest') as [e'|] eqn:Er; [|discriminate He].
    injection He as <-. apply in_app_iff in Hc as [Hc|Hc].
    - assert (Hb : 0 <= (x - 55296) * 1024 + (y - 56320) + 65536 <= 1114111).
      { unfold is_high_surrogate, is_low_surrogate in *.
        apply andb_true_iff in Hh, Hl. rewrite !Z.leb_le in Hh, Hl. lia. }
      exact (flat_map_percent_units _ (utf8_bytes _ Hb) c Hc).
    - apply (IH rest' e'); [simpl in Hlen; lia| |exact Er|exact Hc].
      intros d Hd. apply Hs. right. right. exact Hd. }
  destruct (is_low_surrogate x); [discriminate He|].
  destruct (encodeURIComponent rest) as [e'|] eqn:Er; [|discriminate He].
  injection He as <-. apply in_app_iff in Hc as [Hc|Hc].
  - assert (Hb : 0 <= x <= 1114111) by (specialize (Hs x (or_introl eq_refl)); lia).
    exact (flat_map_percent_units _ (utf8_bytes _ Hb) c Hc).
  - apply (IH rest e'); auto with arith. intros d Hd. apply Hs. right. exact Hd.
Qed.

(** X23: on a string of UTF-16 code units, whatever [encodeURIComponent]
    returns holds only unreserved characters and [%] (with upper-case hex
    digits), so it never contains the quote that delimits the
    [Content-Disposition] filename. *)
Theorem encodeURIComponent_charset (s e : list Z)
    (Hs : forall c, In c s -> 0 <= c <= 65535)
    (He : encodeURIComponent s = Some e) :
  (forall c, In c e -> uri_unreserved c = true \/ c = 37) /\ ~ In 34 e.
Proof.
  pose proof (encode_units_len (List.length s) s e (le_n _) Hs He) as H.
  split; [exact H|]. intros Hq. destruct (H 34 Hq) as [Hu|Hu]; [discriminate Hu|discriminate Hu].
Qed.

Lemma encodeURIComponent_charset_witness :
  let s := js "a b" ++ [34; 233; 55357; 56832] in
  (forall c, In c s -> 0 <= c <= 65535) /\
  encodeURIComponent s = Some (js "a%20b%22%C3%A9%F0%9F%98%80") /\
  (forall c, In c (js "a%20b%22%C3%A9%F0%9F%98%80") -> uri_unreserved c = true \/ c = 37) /\
  ~ In 34 (js "a%20b%22%C3%A9%F0%9F%98%80").
Proof.
  intros s.
  assert (H1 : forall c, In c s -> 0 <= c <= 65535).
  { intros c Hc. unfold s in Hc. simpl in Hc.
    repeat (destruct Hc as [<-|Hc]; [lia|]). destruct Hc. }
  assert (H2 : encodeURIComponent s = Some (js "a%20b%22%C3%A9%F0%9F%98%80")) by reflexivity.
  split; [exact H1|]. split; [exact H2|].
  exact (encodeURIComponent_charset s _ H1 H2).
Defined.

(** ** Scheduling the preview *)

(** X24: a fetch [handleUrlChange] schedules is for the typed URL itself,
    after 1000 ms, and [fetchVideoInfo] on it never returns early: it
    always sets the loading flag, clears the old preview, asks the test
    route for that URL, and ends with the loading flag cleared. *)
Theorem scheduled_fetch_runs (newUrl url : list Z) (delay : Z)
    (data : option (list (list Z * JSValue)))
    (H : handleUrlChange newUrl = ScheduleFetch delay url) :
  url = newUrl /\ delay = 1000 /\
  exists mid, fetchVideoInfo url data =
    [SetIsLoadingInfo true; SetVideoInfo None; FetchTest (JObj [(js "url", JStr url)])] ++
    mid ++ [SetIsLoadingInfo false].
Proof.
  unfold handleUrlChange in H.
  destruct (negb (match trim newUrl with [] => false | _ => true end)); [discriminate H|].
  destruct (validateYouTubeUrl newUrl) eqn:Hv; [|discriminate H].
  injection H as <- <-. split; [reflexivity|]. split; [reflexivity|].
  unfold fetchVideoInfo. rewrite Hv. cbn [negb]. eexists. reflexivity.
Qed.

Lemma scheduled_fetch_runs_witness :
  handleUrlChange (js "youtu.be/a") = ScheduleFetch 1000 (js "youtu.be/a") /\
  js "youtu.be/a" = js "youtu.be/a" /\ 1000 = 1000 /\
  exists mid, fetchVideoInfo (js "youtu.be/a") None =
    [SetIsLoadingInfo true; SetVideoInfo None; FetchTest (JObj [(js "url", JStr (js "youtu.be/a"))])] ++
    mid ++ [SetIsLoadingInfo false].
Proof.
  assert (H : handleUrlChange (js "youtu.be/a") = ScheduleFetch 1000 (js "youtu.be/a"))
    by reflexivity.
  split; [exact H|]. exact (scheduled_fetch_runs _ _ _ None H).
Defined.

(** ** The download route streams only after its checks *)

Lemma fst_run_validate v g st u k :
  fst (run v g st (ValidateURL u k)) = CValidate u :: fst (run v g st (k (v u))).
Proof. simpl. destruct (run v g st (k (v u))). reflexivity. Qed.

Lemma fst_run_getinfo v g st u k :
  fst (run v g st (GetInfo u k)) = CGetInfo u :: fst (run v g st (k (g u))).
Proof. simpl. destruct (run v g st (k (g u))). reflexivity. Qed.

Lemma fst_run_stream v g st u q k :
  fst (run v g st (Stream u q k)) = CStream u q :: fst (run v g st (k (st u q))).
Proof. simpl. destruct (run v g st (k (st u q))). reflexivity. Qed.

(** X25: whatever the body, [POST /api/download] asks for a stream only
    when the body has a truthy [url] the resolver accepts and a bitrate and
    sample rate (or their defaults) from the supported lists; the stream is
    then its fourth and last resolver call, after the check and two
    metadata lookups. *)
Theorem download_POST_streams_only_when_valid (body : JSValue) (validate : JSValue -> bool)
    (getInfo : JSValue -> option Info)
    (stream : JSValue -> StreamReq -> list Z + list Byte.byte) :
  let calls := fst (run validate getInfo stream (download_POST body)) in
  forall u q, In (CStream u q) calls ->
  get_prop body (js "url") = Some u /\ truthy u = true /\ validate u = true /\
  (exists br, get_prop body (js "bitrate") = Some br /\
              includes [js "128"; js "192"] (with_default br (JStr (js "128"))) = true) /\
  (exists sr, get_prop body (js "sampleRate") = Some sr /\
              includes [js "16000"; js "22050"; js "44100"]
                (with_default sr (JStr (js "22050"))) = true) /\
  calls = [CValidate u; CGetInfo u; CGetInfo u; CStream u q].
Proof.
  intros calls. unfold calls, download_POST.
  destruct (get_prop body (js "url")) as [url|] eqn:E1;
  destruct (get_prop body (js "bitrate")) as [br|] eqn:E2;
  destruct (get_prop body (js "sampleRate")) as [sr|] eqn:E3;
  destruct (get_prop body (js "oldPhoneMode")) as [opm|] eqn:E4;
    try (intros u q []).
  destruct (truthy url) eqn:Ht; cbn [negb]; [|intros u q []].
  destruct (includes _ (with_default br _)) eqn:Hb; cbn [negb]; [|intros u q []].
  destruct (includes _ (with_default sr _)) eqn:Hs; cbn [negb]; [|intros u q []].
  rewrite fst_run_validate. destruct (validate url) eqn:Hv; cbn [negb].
  - rewrite fst_run_getinfo, fst_run_getinfo, fst_run_stream.
    destruct (stream url _) as [m|a];
      [|repeat match goal with |- context [header_string ?x] => destruct (header_string x) end];
      cbn [run fst]; intros u q Hin;
      destruct Hin as [H|[H|[H|[H|[]]]]]; try discriminate H; injection H as <- <-;
      repeat split; auto; eexists; split; eauto.
  - intros u q [H|[]]; discriminate H.
Qed.

Lemma download_POST_streams_only_when_valid_witness :
  let body := download_body (js "youtu.be/a") Br128 Sr22050 true in
  let calls := fst (run (fun _ => true) (fun _ => None) (fun _ _ => inr []) (download_POST body)) in
  In (CStream (JStr (js "youtu.be/a")) HighestAudioOnly) calls /\
  get_prop body (js "url") = Some (JStr (js "youtu.be/a")) /\
  truthy (JStr (js "youtu.be/a")) = true /\ (fun _ : JSValue => true) (JStr (js "youtu.be/a")) = true /\
  (exists br, get_prop body (js "bitrate") = Some br /\
              includes [js "128"; js "192"] (with_default br (JStr (js "128"))) = true) /\
  (exists sr, get_prop body (js "sampleRate") = Some sr /\
              includes [js "16000"; js "22050"; js "44100"]
                (with_default sr (JStr (js "22050"))) = true) /\
  calls = [CValidate (JStr (js "youtu.be/a")); CGetInfo (JStr (js "youtu.be/a"));
           CGetInfo (JStr (js "youtu.be/a")); CStream (JStr (js "youtu.be/a")) HighestAudioOnly].
Proof.
  intros body calls.
  assert (H : In (CStream (JStr (js "youtu.be/a")) HighestAudioOnly) calls).
  { vm_compute. right. right. right. left. reflexivity. }
  split; [exact H|].
  exact (download_POST_streams_only_when_valid body (fun _ => true) (fun _ => None)
           (fun _ _ => inr []) _ _ H).
Defined.
